(** * Residential: plots, placed structures and the structure catalog

    A shallow embedding of the plot / structure-placement code of the
    repository:

    - [Plot] (server/lib/plot): [assignPlayer], [unassignPlayer],
      [addStructure], [clear], [serialize];
    - [PlotService.placeStructure] (server/services);
    - the catalog entry [road-intersection] and the category interface
      [IStructureCategory] (shared/lib/residential).

    The host engine (scene graph, transforms, physics query) is not part of
    the repository.  What the code takes from it is gathered in the class
    [Host], and the part of the scene graph the code touches is the explicit
    state [World]. *)

From stdpp Require Import base option list strings gmap.
From Stdlib Require Import ZArith.

Local Open Scope string_scope.
Local Open Scope list_scope.

(** ** A small state-and-exception monad

    TypeScript [throw] aborts the call, and every mutation made before the
    throw stays: a computation returns its outcome together with the state
    it reached. *)

Inductive Result (E A : Type) : Type :=
| Ok (a : A)
| Throw (e : E).
Arguments Ok {E A} a.
Arguments Throw {E A} e.

Definition M (S E A : Type) : Type := S → Result E A * S.

#[global] Instance M_ret {S E} : MRet (M S E) := λ A a s, (Ok a, s).
#[global] Instance M_bind {S E} : MBind (M S E) :=
  λ A B k m s, match m s with
               | (Ok a, s') => k a s'
               | (Throw e, s') => (Throw e, s')
               end.

Definition throw {S E A} (e : E) : M S E A := λ s, (Throw e, s).
Definition gets {S E A} (f : S → A) : M S E A := λ s, (Ok (f s), s).
Definition modify {S E} (f : S → S) : M S E unit := λ s, (Ok tt, f s).

Ltac run :=
  repeat (unfold mbind, M_bind, mret, M_ret, gets, modify, throw; cbn).

(** [forEachM body l]: run [body] on each element in order; a throw stops
    the loop. *)
Fixpoint forEachM {S E A} (body : A → M S E unit) (l : list A) : M S E unit :=
  match l with
  | [] => mret tt
  | x :: l' => body x;; forEachM body l'
  end.

(** ** LinkedList<K, V> *)

Module LinkedList.
Section Ops.
Context {K V : Type} `{EqDecision K}.

(** Modelled from the spec: shared/lib/data-structures/linked-list is not
    among the sources.  Section 3 of the specification describes it as a
    mapping that preserves insertion order: the entries are kept as a list
    in insertion order.  What [add] does with a key that is already
    present is left open by the specification ("fails (or overwrites, per
    chosen policy)"), so that policy is the parameter [on_duplicate]. *)
Variable on_duplicate : K → V → list (K * V) → list (K * V).

Definition empty : list (K * V) := [].

Definition has (k : K) (l : list (K * V)) : bool :=
  bool_decide (k ∈ l.*1).

Definition get (k : K) (l : list (K * V)) : option V :=
  snd <$> List.find (λ e, bool_decide (e.1 = k)) l.

Definition add (k : K) (v : V) (l : list (K * V)) : list (K * V) :=
  if has k l then on_duplicate k v l else l ++ [(k, v)].

(** [forEach] visits the entries in insertion order. *)
Definition forEach {S E} (visitor : K → V → M S E unit) (l : list (K * V))
  : M S E unit :=
  forEachM (λ e, visitor e.1 e.2) l.

(** [map] produces the transformed values, in the same order. *)
Definition map {B} (transform : K → V → B) (l : list (K * V)) : list B :=
  (λ e, transform e.1 e.2) <$> l.

(** One duplicate policy: overwrite in place. *)
Definition overwrite (k : K) (v : V) (l : list (K * V)) : list (K * V) :=
  (λ e, if bool_decide (e.1 = k) then (k, v) else e) <$> l.
End Ops.
End LinkedList.

(** ** Players and errors *)

(** The host's [Player]: the code reads [Name] and compares players. *)
Record Player := { Name : string; UserId : Z }.

#[global] Instance Player_eq_dec : EqDecision Player.
Proof. solve_decision. Defined.

(** The code throws message strings.  An error is the throw site, named as
    in section 7 of the specification, with the values the message
    interpolates:
    - [AlreadyAssigned]: [Assert.undefined] in [assignPlayer];
    - [MissingAnchorGeometry]: the two "does not have a Primary Part" throws
      of [addStructure];
    - [PlacementCollision]: "it collided unexpectedly";
    - [MissingPlatform]: "Platform is undefined";
    - [ObjectLeakDetected]: [Assert.empty] in [clear];
    - [PlotNotFound], [StructureNotFound]: the two [assert] of
      [placeStructure]. *)
Inductive Error :=
| AlreadyAssigned (playerName : string)
| MissingAnchorGeometry (structureId : string)
| PlacementCollision (playerName : option string)
| MissingPlatform
| ObjectLeakDetected (playerName : option string)
| PlotNotFound (playerName : string)
| StructureNotFound (structureId : string).

(** ** Data (shared/lib/Residential/types.d.ts and the host's objects) *)

Section Types.

(** Host types.  [CFrame] is the engine's rigid transform; [Currency] is the
    type of the currency tags of shared/lib/residential/currency, which is
    not among the sources. *)
Context {CFrame Currency : Type}.

Record Part := {
  Anchored : bool;
  CanCollide : bool;
  Part_CFrame : CFrame;
}.

(** A [Model] of the scene graph.  [Parent] is the plot whose structures
    folder holds the model, if any; [Pivot] is what [PivotTo] sets. *)
Record Model := {
  Parent : option nat;
  PrimaryPart : option Part;
  Pivot : CFrame;
}.

Record Price := { value : Z; currency : Currency }.

Record IStructure := {
  id : string;
  name : string;
  description : string;
  model : Model;
  price : Price;
}.

(** [IStructureCategory]: the data fields of the interface; its query
    methods are the functions of section "Catalog" below. *)
Record IStructureCategory := {
  category_id : string;
  icon : string;
  verboseName : string;
  verboseNamePlural : string;
  category_description : string;
  structures : list IStructure;
}.

(** A [StructureInstance] object.  [uuid] and [structure] are set by the
    constructor and never written again; the mutable field [model] lives
    in the [World] under the object's identity [self], because the same
    object may be reachable from the caller and from a plot's list. *)
Record IStructureInstance := {
  self : nat;
  uuid : string;
  structure : IStructure;
}.

(** ** The host world *)

(** The calls made on the host and on the list, in program order. *)
Inductive Event :=
| EvCollisionQuery (hitbox : Part) (plot : nat) (excluded : list Model)
| EvSpawn (inst : nat) (handle : nat) (parent : nat)
| EvPivotTo (handle : nat) (cf : CFrame)
| EvDestroy (inst : nat)
| EvRegister (key : string) (inst : nat).

(** - [objects]: every [Model] ever created in a structures folder, by
      handle (its index); [None] once destroyed.
    - [platforms]: per plot instance, its child named
      [PLATFORM_INSTANCE_NAME] ([FindFirstChild]).
    - [instances]: per [StructureInstance] object, its field [model]
      (absent: undefined); [next_instance] numbers the objects made by
      [new StructureInstance].
    - [characters]: what [getAllCharacters()] returns.
    - [trace]: the calls made so far. *)
Record World := {
  objects : list (option Model);
  platforms : gmap nat Part;
  instances : gmap nat nat;
  next_instance : nat;
  characters : list Model;
  trace : list Event;
}.

(** ** Plot (server/lib/plot) *)

Record Plot := {
  player : option Player;
  instance : nat;
  structureList : list (string * IStructureInstance);
}.

End Types.

(** ** What the code takes from its environment

    - [cf_mul]: composition of transforms, [a.mul(b)];
    - [Koins]: the currency tag of shared/lib/residential/currency;
    - [NormalRoad]: the model [MODELS_FOLDER.Road.NormalRoad];
    - [Clone]: the host's [Instance.Clone];
    - [hitboxIsCollidedInPlot]: the collision oracle of
      shared/lib/plot/utils/plot-collisions, called as
      [hitboxIsCollidedInPlot(hitbox, plotInstance, excluded)]; it may look
      at the whole scene;
    - [on_duplicate]: what [LinkedList.add] does with a key already present;
    - [serializeInstance]: the [serialize(reference)] method of a structure
      instance, which reads the instance's model from the world, and its
      result type [Serialized];
    - [getStructureById]: the catalog lookup imported by the plot service
      from structures/utils/get-structures. *)
Class Host (CFrame Currency Serialized : Type) := {
  cf_mul : CFrame → CFrame → CFrame;
  Koins : Currency;
  NormalRoad : @Model CFrame;
  Clone : @Model CFrame → @Model CFrame;
  hitboxIsCollidedInPlot :
    @Part CFrame → nat → list (@Model CFrame) → @World CFrame → bool;
  on_duplicate :
    string → @IStructureInstance CFrame Currency →
    list (string * @IStructureInstance CFrame Currency) →
    list (string * @IStructureInstance CFrame Currency);
  serializeInstance :
    @World CFrame → @IStructureInstance CFrame Currency → option CFrame →
    Serialized;
  getStructureById : string → option (@IStructure CFrame Currency);
}.

Section Residential.

Context `{Host CFrame Currency Serialized}.

Local Abbreviation Part := (@Part CFrame).
Local Abbreviation Model := (@Model CFrame).
Local Abbreviation Event := (@Event CFrame).
Local Abbreviation World := (@World CFrame).
Local Abbreviation IStructure := (@IStructure CFrame Currency).
Local Abbreviation IStructureCategory := (@IStructureCategory CFrame Currency).
Local Abbreviation IStructureInstance := (@IStructureInstance CFrame Currency).
Local Abbreviation Plot := (@Plot CFrame Currency).

(** [constructor(plotInstance)] *)
Definition new_Plot (plotInstance : nat) : Plot :=
  {| player := None; instance := plotInstance;
     structureList := LinkedList.empty |}.

Definition getPlayer (this : Plot) : option Player := player this.
Definition getInstance (this : Plot) : nat := instance this.
Definition isAssigned (this : Plot) : bool :=
  match player this with Some _ => true | None => false end.

(** *** Host operations *)

Definition set_objects (o : list (option Model)) (w : World) : World :=
  {| objects := o; platforms := platforms w; instances := instances w;
     next_instance := next_instance w; characters := characters w;
     trace := trace w |}.

Definition set_instances (i : gmap nat nat) (w : World) : World :=
  {| objects := objects w; platforms := platforms w; instances := i;
     next_instance := next_instance w; characters := characters w;
     trace := trace w |}.

Definition log (e : Event) (w : World) : World :=
  {| objects := objects w; platforms := platforms w; instances := instances w;
     next_instance := next_instance w; characters := characters w;
     trace := trace w ++ [e] |}.

Definition get_model (handle : nat) (w : World) : option Model :=
  default None (objects w !! handle).

Definition update_model (handle : nat) (f : Model → Model) (w : World) : World :=
  set_objects (alter (fmap f) handle (objects w)) w.

(** [folder.GetChildren()] for the structures folder of plot [plot]: the
    handles of the live models whose parent it is. *)
Definition GetChildren (plot : nat) (w : World) : list nat :=
  omap (λ o, o) (imap (λ handle o,
                   match o with
                   | Some m => if decide (Parent m = Some plot)
                               then Some handle else None
                   | None => None
                   end) (objects w)).

(** [instance.FindFirstChild(PLATFORM_INSTANCE_NAME)] *)
Definition FindPlatform (plot : nat) (w : World) : option Part :=
  platforms w !! plot.

Definition with_Pivot (cf : CFrame) (m : Model) : Model :=
  {| Parent := Parent m; PrimaryPart := PrimaryPart m; Pivot := cf |}.

Definition with_Anchored (b : bool) (m : Model) : Model :=
  {| Parent := Parent m;
     PrimaryPart :=
       (λ pp, {| Anchored := b; CanCollide := CanCollide pp;
                 Part_CFrame := Part_CFrame pp |}) <$> PrimaryPart m;
     Pivot := Pivot m |}.

Definition with_CanCollide (b : bool) (m : Model) : Model :=
  {| Parent := Parent m;
     PrimaryPart :=
       (λ pp, {| Anchored := Anchored pp; CanCollide := b;
                 Part_CFrame := Part_CFrame pp |}) <$> PrimaryPart m;
     Pivot := Pivot m |}.

(** [model.PivotTo(cf)] *)
Definition PivotTo (handle : nat) (cf : CFrame) : M World Error unit :=
  modify (λ w, log (EvPivotTo handle cf) (update_model handle (with_Pivot cf) w)).

(** [model.PrimaryPart.Anchored = b] and [model.PrimaryPart.CanCollide = b] *)
Definition set_Anchored (handle : nat) (b : bool) : M World Error unit :=
  modify (update_model handle (with_Anchored b)).

Definition set_CanCollide (handle : nat) (b : bool) : M World Error unit :=
  modify (update_model handle (with_CanCollide b)).

(** One call of the collision oracle, with [getAllCharacters()] as the
    excluded bodies. *)
Definition collisionQuery (hitbox : Part) (plot : nat) : M World Error bool :=
  λ w, (Ok (hitboxIsCollidedInPlot hitbox plot (characters w) w),
        log (EvCollisionQuery hitbox plot (characters w)) w).

(** *** StructureInstance *)

(** Modelled from the spec: the class StructureInstance
    (structures/utils/structure-instance) is not among the sources.  The
    specification says it holds "a reference to its Structure definition,
    and a live handle to its spawned representation in the host world",
    that placing "spawn[s] the instance's physical representation into the
    plot's world container", and that it is "destroyed when the plot is
    cleared".  [new_StructureInstance] makes an object with no model;
    [spawn] clones the structure's template into the given folder and keeps
    the handle in the field [model]; [destroy] destroys that model, if any,
    and forgets it. *)
Definition new_StructureInstance (uuid : string) (structure : IStructure)
  : M World Error IStructureInstance :=
  λ w, (Ok {| self := next_instance w; uuid := uuid; structure := structure |},
        {| objects := objects w; platforms := platforms w;
           instances := instances w; next_instance := S (next_instance w);
           characters := characters w; trace := trace w |}).

Definition spawn (this : IStructureInstance) (parent : nat) : M World Error nat :=
  λ w, let handle := length (objects w) in
       let template := Clone (model (structure this)) in
       let m := {| Parent := Some parent; PrimaryPart := PrimaryPart template;
                   Pivot := Pivot template |} in
       (Ok handle,
        log (EvSpawn (self this) handle parent)
          (set_instances (<[self this := handle]> (instances w))
             (set_objects (objects w ++ [Some m]) w))).

Definition destroy (this : IStructureInstance) : M World Error unit :=
  modify (λ w, log (EvDestroy (self this))
                 match instances w !! self this with
                 | Some handle =>
                     set_instances (delete (self this) (instances w))
                       (set_objects (<[handle := None]> (objects w)) w)
                 | None => w
                 end).

(** *** Plot methods

    A method runs on the pair of the [Plot] object and the world. *)

Definition in_world {A} (m : M World Error A) : M (Plot * World) Error A :=
  λ s, let (r, w') := m s.2 in (r, (s.1, w')).

Definition set_player (p : option Player) (this : Plot) : Plot :=
  {| player := p; instance := instance this;
     structureList := structureList this |}.

Definition set_structureList (l : list (string * IStructureInstance))
    (this : Plot) : Plot :=
  {| player := player this; instance := instance this; structureList := l |}.

(** [Assert.undefined(this.player, ...)] of @rbxts/lunit throws when the
    value is defined. *)
Definition assignPlayer (p : Player) : M (Plot * World) Error unit :=
  this ← gets fst;
  match player this with
  | Some _ => throw (AlreadyAssigned (Name p))
  | None => modify (λ s, (set_player (Some p) s.1, s.2))
  end.

(** [this.structureList.add(key, value)] *)
Definition structureList_add (key : string) (value : IStructureInstance)
  : M (Plot * World) Error unit :=
  modify (λ s,
    (set_structureList
       (LinkedList.add on_duplicate key value (structureList s.1)) s.1,
     log (EvRegister key (self value)) s.2)).

(** [getPlatform()] *)
Definition getPlatform : M (Plot * World) Error (option Part) :=
  gets (λ s, FindPlatform (instance s.1) s.2).

(** [positionRelativeToPlatform] defaults to [false] in the source; a caller
    that omits it passes [false] here. *)
Definition addStructure (structureInstance : IStructureInstance)
    (cframe : CFrame) (positionRelativeToPlatform : bool)
  : M (Plot * World) Error unit :=
  this ← gets fst;
  match PrimaryPart (model (structure structureInstance)) with
  | None => throw (MissingAnchorGeometry (id (structure structureInstance)))
  | Some tempHitbox =>
    isCollided ← in_world (collisionQuery tempHitbox (instance this));
    if isCollided : bool then
      throw (PlacementCollision (Name <$> player this))
    else
      newStructure ← in_world (spawn structureInstance (instance this));
      spawned ← gets (λ s, get_model newStructure s.2);
      match spawned ≫= PrimaryPart with
      | None =>
          throw (MissingAnchorGeometry (id (structure structureInstance)))
      | Some _ =>
        in_world (set_Anchored newStructure true);;
        in_world (set_CanCollide newStructure false);;
        cframe ← (if positionRelativeToPlatform then
                    platform ← getPlatform;
                    match platform with
                    | Some platform => mret (cf_mul (Part_CFrame platform) cframe)
                    | None => throw MissingPlatform
                    end
                  else mret cframe);
        in_world (PivotTo newStructure cframe);;
        structureList_add (uuid structureInstance) structureInstance
      end
  end.

(** [Assert.empty(children, ...)] throws when the array is not empty. *)
Definition clear : M (Plot * World) Error unit :=
  this ← gets fst;
  LinkedList.forEach (λ _ value, in_world (destroy value)) (structureList this);;
  children ← gets (λ s, GetChildren (instance s.1) s.2);
  match children with
  | [] => mret tt
  | _ :: _ => throw (ObjectLeakDetected (Name <$> player this))
  end.

Definition unassignPlayer : M (Plot * World) Error unit :=
  this ← gets fst;
  match player this with
  | None => mret tt
  | Some _ => clear
  end.

(** [SerializedPlotInstance]; the field is [structures] in the source. *)
Record SerializedPlotInstance := {
  serialized_structures : list Serialized;
}.

Definition serialize (this : Plot) (w : World) : SerializedPlotInstance :=
  let platform := FindPlatform (instance this) w in
  let platformCFrame := Part_CFrame <$> platform in
  {| serialized_structures :=
       LinkedList.map (λ _ structure, serializeInstance w structure platformCFrame)
         (structureList this) |}.

Definition getEmptySerializedPlotInstance : SerializedPlotInstance :=
  {| serialized_structures := [] |}.

(** *** The worlds a call of [addStructure] goes through

    Named here so that the statements about [addStructure] can refer to
    them. *)

Definition after_query (hb : Part) (plot : nat) (w : World) : World :=
  (collisionQuery hb plot w).2.

Definition after_spawn (si : IStructureInstance) (plot : nat) (w : World)
  : World :=
  (spawn si plot w).2.

Definition after_anchor (handle : nat) (w : World) : World :=
  update_model handle (with_CanCollide false)
    (update_model handle (with_Anchored true) w).

Definition after_pivot (handle : nat) (cf : CFrame) (w : World) : World :=
  log (EvPivotTo handle cf) (update_model handle (with_Pivot cf) w).

(** The transform handed to [PivotTo]; [None] when the platform is needed
    and missing. *)
Definition final_cframe (positionRelativeToPlatform : bool) (plot : nat)
    (cframe : CFrame) (w : World) : option CFrame :=
  if positionRelativeToPlatform
  then (λ platform, cf_mul (Part_CFrame platform) cframe)
         <$> FindPlatform plot w
  else Some cframe.

(** The world after the loop of [clear]: every entry's instance destroyed,
    in list order. *)
Definition destroy_all (l : list (string * IStructureInstance)) (w : World)
  : World :=
  foldl (λ w e, (destroy e.2 w).2) w l.

(** Several placements in a row, stopping at the first that throws. *)
Definition addStructures (l : list (IStructureInstance * CFrame * bool))
  : M (Plot * World) Error unit :=
  forEachM (λ a, addStructure a.1.1 a.1.2 a.2) l.

Definition is_register (e : Event) : bool :=
  match e with EvRegister _ _ => true | _ => false end.

Definition is_spawn (e : Event) : bool :=
  match e with EvSpawn _ _ _ => true | _ => false end.

(** ** Catalog *)

(** The structure of the file that exports [road-intersection]. *)
Definition road_intersection : IStructure :=
  {| id := "road-intersection";
     name := "Intersection";
     description := "An intersection.";
     model := NormalRoad;
     price := {| value := 100; currency := Koins |} |}.

(** Modelled from the spec: BaseCategory
    (structures/categories/BaseCategory), which implements the query methods
    declared by [IStructureCategory], is not among the sources.  Section 4.2
    of the specification: "getStructureById(id): linear or indexed lookup;
    returns the Structure or not found".  The lookup is the first structure
    of the category, in catalog order, whose id is the given one. *)
Definition category_getStructureById (category : IStructureCategory)
    (structureId : string) : option IStructure :=
  List.find (λ s, bool_decide (id s = structureId)) (structures category).

(** ** PlotService (server/services) *)

(** Modelled from the spec: PlotFactory (server/lib/plot/factory) is not
    among the sources.  It owns the pool of plots ("pooled/reused", one per
    placeholder of the world); [getPlayersPlot(player)] is the plot of the
    pool assigned to that player, if there is one.  The plot comes with its
    position in the pool, which stands for the object reference. *)
Definition getPlayersPlot (pool : list Plot) (p : Player)
  : option (nat * Plot) :=
  List.find (λ e, bool_decide (getPlayer e.2 = Some p)) (imap pair pool).

(** Run a method of the plot object at [ref] and store the object back. *)
Definition on_plot {A} (ref : nat * Plot) (m : M (Plot * World) Error A)
  : M (list Plot * World) Error A :=
  λ s, let '(r, (this, w)) := m (ref.2, s.2) in
       (r, (<[ref.1 := this]> s.1, w)).

Definition in_world' {A} (m : M World Error A) : M (list Plot * World) Error A :=
  λ s, let (r, w') := m s.2 in (r, (s.1, w')).

(** The Lua [assert(condition, message)] throws when the condition is
    false. *)
Definition placeStructure (p : Player) (structureId : string)
    (cframe : CFrame) (structureUUID : option string)
  : M (list Plot * World) Error unit :=
  playersPlot ← gets (λ s, getPlayersPlot s.1 p);
  match playersPlot with
  | None => throw (PlotNotFound (Name p))
  | Some playersPlot =>
    match getStructureById structureId with
    | None => throw (StructureNotFound structureId)
    | Some structure =>
      let uuid := default "" structureUUID in
      structureInstance ← in_world' (new_StructureInstance uuid structure);
      on_plot playersPlot (addStructure structureInstance cframe false)
    end
  end.

(** ** Further callers of the plot methods *)

(** The public methods of [Plot] that write state, as one call each. *)
Inductive PlotCall :=
| CallAssignPlayer (p : Player)
| CallUnassignPlayer
| CallAddStructure (structureInstance : IStructureInstance) (cframe : CFrame)
    (positionRelativeToPlatform : bool)
| CallClear.

Definition call (c : PlotCall) : M (Plot * World) Error unit :=
  match c with
  | CallAssignPlayer p => assignPlayer p
  | CallUnassignPlayer => unassignPlayer
  | CallAddStructure si cf rel => addStructure si cf rel
  | CallClear => clear
  end.

(** The state reached by a run of calls, each made in the state the one
    before left, whether it returned or threw (the throw is the caller's to
    catch; the writes made before it stay). *)
Definition calls (l : list PlotCall) (s : Plot * World) : Plot * World :=
  foldl (λ s c, (call c s).2) s l.

(** The models the entries of a structure list point to: for each entry, in
    order, the [model] field of its instance when it has one. *)
Definition registered_models (l : list (string * IStructureInstance))
    (w : World) : list nat :=
  omap (λ e, instances w !! self e.2) l.

(** The handler [PlotService.onStart] connects to the player-leaving
    event. *)
Definition onPlayerLeaving (p : Player) : M (list Plot * World) Error unit :=
  plot ← gets (λ s, getPlayersPlot s.1 p);
  match plot with
  | Some plot => on_plot plot unassignPlayer
  | None => mret tt
  end.

End Residential.

(** ** A concrete host

    Transforms are offsets along one axis ([Z], composed by addition).  The
    oracle reports a collision when a live model of the plot has its pivot
    where the hitbox is.  Duplicate keys overwrite in place. *)

Module Scenario.

Local Open Scope Z_scope.

Inductive Currency := koins | gems.

Definition Serialized : Type := string * option Z.

Definition hitbox : @Part Z :=
  {| Anchored := false; CanCollide := true; Part_CFrame := 0 |}.

Definition road_model : @Model Z :=
  {| Parent := None; PrimaryPart := Some hitbox; Pivot := 0 |}.

Definition no_anchor : @Model Z :=
  {| Parent := None; PrimaryPart := None; Pivot := 0 |}.

Definition road : @IStructure Z Currency :=
  {| id := "road-intersection";
     name := "Intersection";
     description := "An intersection.";
     model := road_model;
     price := {| value := 100; currency := koins |} |}.

Definition broken : @IStructure Z Currency :=
  {| id := "broken";
     name := "Broken";
     description := "A structure whose model has no primary part.";
     model := no_anchor;
     price := {| value := 5; currency := gems |} |}.

Definition category : @IStructureCategory Z Currency :=
  {| category_id := "road";
     icon := "rbxassetid://0";
     verboseName := "Road";
     verboseNamePlural := "Roads";
     category_description := "Roads.";
     structures := [road; broken] |}.

Definition oracle (hb : @Part Z) (plot : nat) (excluded : list (@Model Z))
    (w : @World Z) : bool :=
  existsb (λ o, match o with
                | Some m => bool_decide (Parent m = Some plot)
                            && bool_decide (Pivot m = Part_CFrame hb)
                | None => false
                end) (objects w).

Definition serializer (w : @World Z) (si : @IStructureInstance Z Currency)
    (reference : option Z) : Serialized :=
  (uuid si,
   (λ m, Pivot m - default 0 reference)
     <$> (instances w !! self si ≫= λ handle, get_model handle w)).

#[export] Instance host : Host Z Currency Serialized :=
  {| cf_mul := Z.add;
     Koins := koins;
     NormalRoad := road_model;
     Clone := λ m, m;
     hitboxIsCollidedInPlot := oracle;
     on_duplicate := LinkedList.overwrite;
     serializeInstance := serializer;
     getStructureById := category_getStructureById category |}.

Definition alice : Player := {| Name := "alice"; UserId := 1 |}.
Definition bob : Player := {| Name := "bob"; UserId := 2 |}.

Definition platform : @Part Z :=
  {| Anchored := true; CanCollide := true; Part_CFrame := 1000 |}.

(** Plot 0 has a platform, plot 1 has none; nothing has been placed. *)
Definition world0 : @World Z :=
  {| objects := []; platforms := {[ 0%nat := platform ]}; instances := ∅;
     next_instance := 0; characters := []; trace := [] |}.

Definition plot0 : @Plot Z Currency := new_Plot 0.
Definition plot1 : @Plot Z Currency := new_Plot 1.

Definition plot0_alice : @Plot Z Currency := set_player (Some alice) plot0.
Definition plot1_bob : @Plot Z Currency := set_player (Some bob) plot1.

Definition instance_a : @IStructureInstance Z Currency :=
  {| self := 0; uuid := "a"; structure := road |}.
Definition instance_b : @IStructureInstance Z Currency :=
  {| self := 1; uuid := "b"; structure := road |}.
Definition instance_broken : @IStructureInstance Z Currency :=
  {| self := 2; uuid := "c"; structure := broken |}.

End Scenario.

(** * Properties *)

(** ** [find] on lists *)

Lemma find_None_iff {A} (f : A → bool) (l : list A) :
  List.find f l = None ↔ ∀ x, x ∈ l → f x = false.
Proof.
  induction l as [|a l IH]; cbn.
  - split; [|done]. intros _ x Hx. by apply elem_of_nil in Hx.
  - destruct (f a) eqn:Hfa.
    + split; [done|]. intros Hall.
      rewrite Hall in Hfa; [done|by left].
    + rewrite IH. split.
      * intros Hall x [->|Hx]%elem_of_cons; eauto.
      * intros Hall x Hx. apply Hall. by right.
Qed.

Lemma find_Some_elem {A} (f : A → bool) (l : list A) (x : A) :
  List.find f l = Some x → x ∈ l ∧ f x = true.
Proof.
  induction l as [|a l IH]; cbn; [done|].
  destruct (f a) eqn:Hfa.
  - intros [= ->]. split; [by left|done].
  - intros [Hin Hfx]%IH. split; [by right|done].
Qed.

Lemma find_unique {A} (f : A → bool) (l : list A) (x : A) :
  x ∈ l → f x = true → (∀ y, y ∈ l → f y = true → y = x) →
  List.find f l = Some x.
Proof.
  intros Hin Hfx Hunique.
  destruct (List.find f l) as [y|] eqn:Hfind.
  - apply find_Some_elem in Hfind as [Hy Hfy]. f_equal. eauto.
  - rewrite find_None_iff in Hfind. rewrite Hfind in Hfx; done.
Qed.

Section Facts.

Context `{Host CFrame Currency Serialized}.

Local Abbreviation Part := (@Part CFrame).
Local Abbreviation Model := (@Model CFrame).
Local Abbreviation Event := (@Event CFrame).
Local Abbreviation World := (@World CFrame).
Local Abbreviation IStructure := (@IStructure CFrame Currency).
Local Abbreviation IStructureCategory := (@IStructureCategory CFrame Currency).
Local Abbreviation IStructureInstance := (@IStructureInstance CFrame Currency).
Local Abbreviation Plot := (@Plot CFrame Currency).
Local Abbreviation PlotCall := (@PlotCall CFrame Currency).

(** ** [addStructure], step by step *)

Lemma get_model_spawned (si : IStructureInstance) (plot : nat) (w : World) :
  get_model (length (objects w)) (after_spawn si plot w)
  = Some {| Parent := Some plot;
            PrimaryPart := PrimaryPart (Clone (model (structure si)));
            Pivot := Pivot (Clone (model (structure si))) |}.
Proof.
  unfold get_model, after_spawn, spawn; cbn.
  by rewrite lookup_app_r, Nat.sub_diag by lia.
Qed.

Lemma addStructure_unfold (si : IStructureInstance) (cf : CFrame) (rel : bool)
    (this : Plot) (w : World) :
  addStructure si cf rel (this, w) =
  match PrimaryPart (model (structure si)) with
  | None => (Throw (MissingAnchorGeometry (id (structure si))), (this, w))
  | Some hb =>
    let w1 := after_query hb (instance this) w in
    if hitboxIsCollidedInPlot hb (instance this) (characters w) w then
      (Throw (PlacementCollision (Name <$> player this)), (this, w1))
    else
      let handle := length (objects w) in
      let w2 := after_spawn si (instance this) w1 in
      match PrimaryPart (Clone (model (structure si))) with
      | None => (Throw (MissingAnchorGeometry (id (structure si))), (this, w2))
      | Some _ =>
        let w3 := after_anchor handle w2 in
        match final_cframe rel (instance this) cf w with
        | None => (Throw MissingPlatform, (this, w3))
        | Some cf' =>
            (Ok tt,
             (set_structureList
                (LinkedList.add on_duplicate (uuid si) si (structureList this))
                this,
              log (EvRegister (uuid si) (self si)) (after_pivot handle cf' w3)))
        end
      end
  end.
Proof.
  unfold addStructure. run.
  destruct (PrimaryPart (model (structure si))) as [hb|]; run; [|done].
  unfold in_world, collisionQuery; run.
  destruct (hitboxIsCollidedInPlot hb (instance this) (characters w) w);
    run; [done|].
  pose proof (get_model_spawned si (instance this)
                (after_query hb (instance this) w)) as Hget.
  unfold after_query, collisionQuery in Hget; cbn in Hget.
  unfold after_spawn, spawn in Hget; cbn in Hget.
  rewrite Hget; cbn.
  destruct (PrimaryPart (Clone (model (structure si)))); run; [|done].
  unfold final_cframe, getPlatform, FindPlatform.
  destruct rel; run; [|done].
  by destruct (platforms w !! instance this).
Qed.

Lemma elem_of_GetChildren (plot : nat) (w : World) (handle : nat) :
  handle ∈ GetChildren plot w
  ↔ ∃ m, get_model handle w = Some m ∧ Parent m = Some plot.
Proof.
  unfold GetChildren, get_model.
  rewrite list_elem_of_omap. split.
  - intros (o & Hin & ->).
    apply elem_of_lookup_imap in Hin as (i & [m|] & Ho & Hi); [|done].
    destruct (decide (Parent m = Some plot)); [|done].
    injection Ho as ->. exists m. by rewrite Hi.
  - intros (m & Hget & Hparent).
    destruct (objects w !! handle) as [o|] eqn:Hi; [|done].
    cbn in Hget; subst o. exists (Some handle). split; [|done].
    apply elem_of_lookup_imap. exists handle, (Some m).
    by rewrite decide_True.
Qed.

Lemma get_model_fresh (w : World) : get_model (length (objects w)) w = None.
Proof. unfold get_model. by rewrite lookup_ge_None_2. Qed.

Lemma get_model_after_anchor (handle : nat) (w : World) :
  get_model handle (after_anchor handle w)
  = with_CanCollide false <$> (with_Anchored true <$> get_model handle w).
Proof.
  unfold get_model, after_anchor, update_model; cbn.
  rewrite !list_lookup_alter_eq.
  by destruct (objects w !! handle) as [[m|]|].
Qed.

(** ** Claims about [addStructure] *)

(** The registration is the last call of a successful [addStructure], and
    a failing one makes none. *)
Lemma addStructure_registration (si : IStructureInstance) (cf : CFrame)
    (rel : bool) (this : Plot) (w : World) :
  match addStructure si cf rel (this, w) with
  | (Throw e, (_, w')) =>
      ∃ evs, trace w' = trace w ++ evs
             ∧ Forall (λ ev, is_register ev = false) evs
  | (Ok _, (this', w')) =>
      structureList this'
      = LinkedList.add on_duplicate (uuid si) si (structureList this)
      ∧ ∃ evs, trace w' = trace w ++ evs ++ [EvRegister (uuid si) (self si)]
               ∧ Forall (λ ev, is_register ev = false) evs
  end.
Proof.
  rewrite addStructure_unfold.
  destruct (PrimaryPart (model (structure si))) as [hb|]; cbn.
  2: { exists []. by rewrite app_nil_r. }
  destruct (hitboxIsCollidedInPlot hb (instance this) (characters w) w).
  { eexists [_]. split; [done|]. by repeat constructor. }
  destruct (PrimaryPart (Clone (model (structure si)))).
  2: { eexists [_; _]. cbn. rewrite <- app_assoc. split; [done|].
       by repeat constructor. }
  destruct (final_cframe rel (instance this) cf w) as [cf'|].
  - split; [done|].
    eexists [_; _; _]. cbn. rewrite <- !app_assoc. split; [done|].
    by repeat constructor.
  - eexists [_; _]. cbn. rewrite <- app_assoc. split; [done|].
    by repeat constructor.
Qed.

(** A failing [addStructure] leaves the plot object as it was. *)
Lemma addStructure_failure (si : IStructureInstance) (cf : CFrame)
    (rel : bool) (this this' : Plot) (w w' : World) (e : Error) :
  addStructure si cf rel (this, w) = (Throw e, (this', w')) →
  this' = this
  ∧ (e = MissingAnchorGeometry (id (structure si))
     ∨ e = PlacementCollision (Name <$> player this)
     ∨ e = MissingPlatform)
  ∧ (e = PlacementCollision (Name <$> player this) →
     objects w' = objects w ∧ instances w' = instances w).
Proof.
  rewrite addStructure_unfold.
  repeat case_match; intros [= <- <- <-]; cbn; naive_solver.
Qed.

(** C1.  Whenever [addStructure] fails, the plot's structure list is the one
    it was before the call, the failure is one of "missing primary part",
    "placement collision" and "missing platform", and no registration was
    made in between; a collision leaves no new object in the world.  When
    the call succeeds, the registration of the instance under its uuid is
    the last thing it does. *)
Theorem addStructure_registers_last (si : IStructureInstance) (cf : CFrame)
    (rel : bool) (this : Plot) (w : World) :
  match addStructure si cf rel (this, w) with
  | (Throw e, (this', w')) =>
      structureList this' = structureList this
      ∧ (e = MissingAnchorGeometry (id (structure si))
         ∨ e = PlacementCollision (Name <$> player this)
         ∨ e = MissingPlatform)
      ∧ (e = PlacementCollision (Name <$> player this) →
         objects w' = objects w ∧ instances w' = instances w)
      ∧ ∃ evs, trace w' = trace w ++ evs
               ∧ Forall (λ ev, is_register ev = false) evs
  | (Ok _, (this', w')) =>
      structureList this'
      = LinkedList.add on_duplicate (uuid si) si (structureList this)
      ∧ ∃ evs, trace w' = trace w ++ evs ++ [EvRegister (uuid si) (self si)]
               ∧ Forall (λ ev, is_register ev = false) evs
  end.
Proof.
  pose proof (addStructure_registration si cf rel this w) as Hreg.
  destruct (addStructure si cf rel (this, w)) as [[[]|e] [this' w']] eqn:Hrun;
    [done|].
  apply addStructure_failure in Hrun as (-> & Hkind & Hcollision).
  done.
Qed.

(** The collision query of [addStructure] is made on the primary part of the
    structure's template as it is stored in the catalog: neither the
    requested transform nor the platform flag reaches the oracle, and the
    verdict is the same for every transform.  The query is the first call
    made, so it precedes the spawn. *)
Lemma addStructure_query (si : IStructureInstance) (cf : CFrame) (rel : bool)
    (this : Plot) (w : World) (hb : Part) :
  PrimaryPart (model (structure si)) = Some hb →
  let '(r, (_, w')) := addStructure si cf rel (this, w) in
  (∃ evs, trace w'
          = trace w ++ EvCollisionQuery hb (instance this) (characters w) :: evs)
  ∧ (r = Throw (PlacementCollision (Name <$> player this))
     ↔ hitboxIsCollidedInPlot hb (instance this) (characters w) w = true).
Proof.
  intros Hhb. rewrite addStructure_unfold, Hhb. cbn.
  destruct (hitboxIsCollidedInPlot hb (instance this) (characters w) w).
  { split; [by exists []|done]. }
  destruct (PrimaryPart (Clone (model (structure si)))).
  2: { split; [|done]. eexists [_]. cbn. by rewrite <- app_assoc. }
  destruct (final_cframe rel (instance this) cf w).
  - split; [|done]. eexists [_; _; _]. cbn. by rewrite <- !app_assoc.
  - split; [|done]. eexists [_]. cbn. by rewrite <- app_assoc.
Qed.

(** C9, as amended.  On a plot without a platform, [addStructure] with the
    platform flag set always throws and leaves the plot object, with its
    structure list, as it was.  When the template has no primary part it
    throws "missing primary part" with the world untouched.  When the
    oracle reports a collision it throws "placement collision" after the
    query alone: no object is added, no [model] field is written and the
    folder has the children it had.  When the call passes both checks, it
    throws only after the spawn: the collision query and the spawn are the
    calls made, the new model is a child of the plot's structures folder
    (it was not before) and the instance's [model] field points to it,
    while nothing was registered.  The error is then "platform is
    undefined" when the spawned model has a primary part. *)
Theorem addStructure_without_platform (si : IStructureInstance) (cf : CFrame)
    (this : Plot) (w : World) :
  FindPlatform (instance this) w = None →
  ∃ e w',
    addStructure si cf true (this, w) = (Throw e, (this, w'))
    ∧ (PrimaryPart (model (structure si)) = None →
       e = MissingAnchorGeometry (id (structure si)) ∧ w' = w)
    ∧ ∀ hb,
        PrimaryPart (model (structure si)) = Some hb →
        (hitboxIsCollidedInPlot hb (instance this) (characters w) w = true →
         e = PlacementCollision (Name <$> player this)
         ∧ objects w' = objects w
         ∧ instances w' = instances w
         ∧ GetChildren (instance this) w' = GetChildren (instance this) w
         ∧ trace w'
           = trace w ++ [EvCollisionQuery hb (instance this) (characters w)])
        ∧ (hitboxIsCollidedInPlot hb (instance this) (characters w) w = false →
           let handle := length (objects w) in
           (e = MissingPlatform
            ∨ e = MissingAnchorGeometry (id (structure si)))
           ∧ (is_Some (PrimaryPart (Clone (model (structure si)))) →
              e = MissingPlatform)
           ∧ (handle ∉ GetChildren (instance this) w)
           ∧ handle ∈ GetChildren (instance this) w'
           ∧ instances w' !! self si = Some handle
           ∧ trace w'
             = trace w ++ [EvCollisionQuery hb (instance this) (characters w);
                           EvSpawn (self si) handle (instance this)]).
Proof.
  intros Hplatform. rewrite addStructure_unfold.
  unfold final_cframe. rewrite Hplatform. cbn.
  destruct (PrimaryPart (model (structure si))) as [hb|] eqn:Hhb.
  2: { eexists _, _. split; [done|]. split; [done|]. by intros hb'. }
  destruct (hitboxIsCollidedInPlot hb (instance this) (characters w) w)
    eqn:Hcollided.
  { eexists _, _. split; [done|]. split; [done|].
    intros hb' [= <-]. rewrite Hcollided. split; [done|]. by intros ?. }
  pose proof (get_model_spawned si (instance this)
                (after_query hb (instance this) w)) as Hget.
  cbn in Hget.
  assert (length (objects w) ∉ GetChildren (instance this) w) as Hfresh.
  { rewrite elem_of_GetChildren. intros (m & Hm & _).
    by rewrite get_model_fresh in Hm. }
  destruct (PrimaryPart (Clone (model (structure si)))) as [pp|] eqn:Hpp.
  - eexists _, _. split; [done|]. split; [done|].
    intros hb' [= <-]. rewrite Hcollided. split; [done|]. intros _.
    split; [by left|]. split; [done|]. split; [done|].
    split; [|split].
    + rewrite elem_of_GetChildren, get_model_after_anchor, Hget. cbn. eauto.
    + cbn. apply lookup_insert_eq.
    + cbn. by rewrite <- app_assoc.
  - eexists _, _. split; [done|]. split; [done|].
    intros hb' [= <-]. rewrite Hcollided. split; [done|]. intros _.
    split; [by right|]. split; [by intros []|]. split; [done|].
    split; [|split].
    + rewrite elem_of_GetChildren, Hget. eauto.
    + cbn. apply lookup_insert_eq.
    + cbn. by rewrite <- app_assoc.
Qed.

(** ** Claims about assignment *)

(** C4.  On a plot that already has a player, [assignPlayer] throws
    "already assigned" and leaves the plot, hence its player, as it was. *)
Theorem assignPlayer_already_assigned (p current : Player) (this : Plot)
    (w : World) :
  player this = Some current →
  assignPlayer p (this, w) = (Throw (AlreadyAssigned (Name p)), (this, w)).
Proof. intros Hassigned. unfold assignPlayer. run. by rewrite Hassigned. Qed.

(** ** [clear] and [unassignPlayer] *)

Lemma forEach_destroy (l : list (string * IStructureInstance)) (this : Plot)
    (w : World) :
  LinkedList.forEach (λ _ value, in_world (destroy value)) l (this, w)
  = (Ok tt, (this, destroy_all l w)).
Proof.
  unfold LinkedList.forEach. revert w.
  induction l as [|e l IH]; intros w; [done|].
  cbn. run. unfold in_world at 1. cbn. apply IH.
Qed.

Lemma clear_unfold (this : Plot) (w : World) :
  clear (this, w) =
  let w' := destroy_all (structureList this) w in
  (match GetChildren (instance this) w' with
   | [] => Ok tt
   | _ :: _ => Throw (ObjectLeakDetected (Name <$> player this))
   end, (this, w')).
Proof.
  unfold clear. run. rewrite forEach_destroy. cbn.
  by destruct (GetChildren (instance this) _).
Qed.

Lemma destroy_get_model_None (si : IStructureInstance) (w : World) (h : nat) :
  get_model h w = None → get_model h (destroy si w).2 = None.
Proof.
  unfold get_model, destroy. run.
  destruct (instances w !! self si) as [h'|]; cbn; [|done].
  intros Hnone. destruct (decide (h' = h)) as [->|Hne].
  - destruct (decide (h < length (objects w))).
    + by rewrite list_lookup_insert_eq.
    + by rewrite list_insert_ge by lia.
  - by rewrite list_lookup_insert_ne.
Qed.

Lemma destroy_instances_None (si : IStructureInstance) (w : World) (i : nat) :
  instances w !! i = None → instances (destroy si w).2 !! i = None.
Proof.
  unfold destroy. run.
  destruct (instances w !! self si); cbn; [|done].
  intros Hnone. rewrite lookup_delete. by case_decide.
Qed.

Lemma destroy_all_cons (e : string * IStructureInstance)
    (l : list (string * IStructureInstance)) (w : World) :
  destroy_all (e :: l) w = destroy_all l (destroy e.2 w).2.
Proof. done. Qed.

Lemma destroy_all_get_model_None (l : list (string * IStructureInstance))
    (w : World) (h : nat) :
  get_model h w = None → get_model h (destroy_all l w) = None.
Proof.
  revert w. induction l as [|e l IH]; intros w Hnone; [done|].
  cbn. apply IH. by apply destroy_get_model_None.
Qed.

Lemma destroy_all_instances_None (l : list (string * IStructureInstance))
    (w : World) (i : nat) :
  instances w !! i = None → instances (destroy_all l w) !! i = None.
Proof.
  revert w. induction l as [|e l IH]; intros w Hnone; [done|].
  cbn. apply IH. by apply destroy_instances_None.
Qed.

Lemma destroy_self (si : IStructureInstance) (w : World) :
  instances (destroy si w).2 !! self si = None
  ∧ ∀ h, instances w !! self si = Some h → get_model h (destroy si w).2 = None.
Proof.
  unfold destroy, get_model. run.
  destruct (instances w !! self si) as [h'|] eqn:Hi; cbn.
  - split; [apply lookup_delete_eq|]. intros h [= <-].
    destruct (decide (h' < length (objects w))).
    + by rewrite list_lookup_insert_eq.
    + rewrite list_insert_ge by lia. by rewrite lookup_ge_None_2 by lia.
  - by split.
Qed.

Lemma destroy_other (si : IStructureInstance) (w : World) (i : nat) :
  i ≠ self si → instances (destroy si w).2 !! i = instances w !! i.
Proof.
  intros Hne. unfold destroy. run.
  destruct (instances w !! self si); cbn; [|done].
  by rewrite lookup_delete_ne.
Qed.

Lemma destroy_all_registered (l : list (string * IStructureInstance))
    (w : World) (key : string) (value : IStructureInstance) :
  (key, value) ∈ l →
  instances (destroy_all l w) !! self value = None
  ∧ ∀ h, instances w !! self value = Some h →
         get_model h (destroy_all l w) = None.
Proof.
  revert w. induction l as [|e l IH]; intros w Hin.
  { by apply elem_of_nil in Hin. }
  rewrite destroy_all_cons.
  destruct (decide (self value = self e.2)) as [Heq|Hne].
  - destruct (destroy_self e.2 w) as [Hinst Hmodel]. rewrite <- Heq in *.
    split; [by apply destroy_all_instances_None|].
    intros h Hh. apply destroy_all_get_model_None. by apply Hmodel.
  - apply elem_of_cons in Hin as [<-|Hin]; [done|].
    destruct (IH (destroy e.2 w).2 Hin) as [Hinst Hmodel].
    split; [done|]. intros h Hh. apply Hmodel.
    by rewrite destroy_other.
Qed.

Lemma destroy_all_trace (l : list (string * IStructureInstance)) (w : World) :
  trace (destroy_all l w) = trace w ++ ((λ e, EvDestroy (self e.2)) <$> l).
Proof.
  revert w. induction l as [|e l IH]; intros w.
  - cbn. by rewrite app_nil_r.
  - rewrite destroy_all_cons, IH, fmap_cons.
    unfold destroy. run. rewrite <- app_assoc.
    by destruct (instances w !! self e.2).
Qed.

(** C5.  [clear] first destroys, in list order, the world model of every
    instance registered in the structure list: afterwards none of them has a
    model, and the model each had is gone from the world.  Then it looks at
    the children of the plot's structures folder, in the world reached by
    the destructions: it returns normally when there is none and throws
    "object leak detected" when one remains. *)
Theorem clear_destroys_then_checks (this : Plot) (w : World) :
  ∃ w',
    clear (this, w)
    = (match GetChildren (instance this) w' with
       | [] => Ok tt
       | _ :: _ => Throw (ObjectLeakDetected (Name <$> player this))
       end, (this, w'))
    ∧ trace w'
      = trace w ++ ((λ e, EvDestroy (self e.2)) <$> structureList this)
    ∧ ∀ key value,
        (key, value) ∈ structureList this →
        instances w' !! self value = None
        ∧ ∀ handle, instances w !! self value = Some handle →
                    get_model handle w' = None.
Proof.
  exists (destroy_all (structureList this) w).
  split; [apply clear_unfold|]. split; [apply destroy_all_trace|].
  intros key value. apply destroy_all_registered.
Qed.

(** C2.  [unassignPlayer] never writes a field of the plot object: a plot
    that has a player still has it after the call ([isAssigned()] stays
    true), and the structure list keeps its entries. *)
Theorem unassignPlayer_leaves_plot_assigned (p : Player) (plotInstance : nat)
    (l : list (string * IStructureInstance)) (w : World) :
  let this := {| player := Some p; instance := plotInstance;
                 structureList := l |} in
  let this' := (unassignPlayer (this, w)).2.1 in
  isAssigned this' = true ∧ getPlayer this' = Some p ∧ structureList this' = l.
Proof.
  cbv zeta. unfold unassignPlayer. run. by rewrite clear_unfold.
Qed.

(** ** [serialize] *)

Lemma addStructure_keeps_instance (si : IStructureInstance) (cf : CFrame)
    (rel : bool) (this : Plot) (w : World) :
  instance (addStructure si cf rel (this, w)).2.1 = instance this.
Proof.
  rewrite addStructure_unfold.
  repeat (case_match; cbn; try done).
Qed.

Lemma addStructures_structureList
    (l : list (IStructureInstance * CFrame * bool)) (this this' : Plot)
    (w w' : World) :
  addStructures l (this, w) = (Ok tt, (this', w')) →
  NoDup ((structureList this).*1 ++ (uuid <$> l.*1.*1)) →
  instance this' = instance this
  ∧ structureList this'
    = structureList this ++ ((λ si, (uuid si, si)) <$> l.*1.*1).
Proof.
  unfold addStructures. revert this w.
  induction l as [|[[si cf] rel] l IH]; intros this w Hrun Hnodup.
  { cbn in Hrun. injection Hrun as -> ->. by rewrite app_nil_r. }
  cbn in Hrun. unfold mbind, M_bind in Hrun. cbn in Hrun.
  pose proof (addStructure_registration si cf rel this w) as Hadd.
  pose proof (addStructure_keeps_instance si cf rel this w) as Hinst.
  destruct (addStructure si cf rel (this, w)) as [[[]|e] [this1 w1]];
    [|done].
  destruct Hadd as [Hlist _]. cbn in Hinst.
  cbn in Hnodup.
  assert (LinkedList.has (uuid si) (structureList this) = false) as Hfresh.
  { unfold LinkedList.has. apply bool_decide_eq_false. intros Hin.
    apply NoDup_app in Hnodup as (_ & Hdisj & _).
    apply (Hdisj _ Hin). by left. }
  unfold LinkedList.add in Hlist. rewrite Hfresh in Hlist.
  apply IH in Hrun as [Hinst' Hlist'].
  - split; [congruence|].
    rewrite Hlist', Hlist. cbn. by rewrite <- app_assoc.
  - rewrite Hlist, fmap_app. cbn. by rewrite <- app_assoc.
Qed.

(** C6.  [serialize] returns one entry per entry of the structure list, in
    the order of the list, each made by the instance's serializer with the
    transform of the plot's platform as reference, or with no reference when
    the plot has no platform.  For an empty list it returns
    [{ structures: [] }].  The order of the list is the order of insertion:
    after a run of successful placements with distinct uuids on a new plot,
    the entries are those of the placed instances, in the order of the
    calls. *)
Theorem serialize_in_insertion_order (this : Plot) (w : World) :
  serialized_structures (serialize this w)
  = (λ e, serializeInstance w e.2
            (Part_CFrame <$> FindPlatform (instance this) w))
      <$> structureList this
  ∧ (structureList this = [] →
     serialize this w = getEmptySerializedPlotInstance)
  ∧ ∀ (l : list (IStructureInstance * CFrame * bool)) (plot : nat)
      (w0 : World),
      addStructures l (new_Plot plot, w0) = (Ok tt, (this, w)) →
      NoDup (uuid <$> l.*1.*1) →
      serialized_structures (serialize this w)
      = (λ si, serializeInstance w si (Part_CFrame <$> FindPlatform plot w))
          <$> l.*1.*1.
Proof.
  split; [done|]. split.
  { intros Hempty. unfold serialize. by rewrite Hempty. }
  intros l plot w0 Hrun Hnodup.
  apply addStructures_structureList in Hrun as [Hinst Hlist]; [|done].
  unfold serialize, LinkedList.map. rewrite Hinst, Hlist. cbn.
  by rewrite <- list_fmap_compose.
Qed.

(** ** Catalog *)

(** C7.  In a category that holds the structure [road-intersection] (price
    100, currency Koins) as its only structure of that id, and no structure
    of id [nonexistent], [getStructureById("road-intersection")] is that
    structure and [getStructureById("nonexistent")] is undefined. *)
Theorem getStructureById_road_intersection (category : IStructureCategory) :
  road_intersection ∈ structures category →
  (∀ s, s ∈ structures category → id s = "road-intersection" →
        s = road_intersection) →
  (∀ s, s ∈ structures category → id s ≠ "nonexistent") →
  category_getStructureById category "road-intersection"
  = Some road_intersection
  ∧ value (price road_intersection) = 100%Z
  ∧ currency (price road_intersection) = Koins
  ∧ category_getStructureById category "nonexistent" = None.
Proof.
  intros Hin Hunique Habsent. unfold category_getStructureById.
  split; [|split; [done|split; [done|]]].
  - apply find_unique; [done|done|].
    intros s Hs Hid. apply Hunique; [done|].
    by apply bool_decide_eq_true in Hid.
  - apply find_None_iff. intros s Hs.
    apply bool_decide_eq_false. by apply Habsent.
Qed.

(** ** PlotService *)

Lemma getPlayersPlot_Some (pool : list Plot) (p : Player) (ref : nat * Plot) :
  getPlayersPlot pool p = Some ref →
  pool !! ref.1 = Some ref.2 ∧ getPlayer ref.2 = Some p.
Proof.
  unfold getPlayersPlot. intros [Hin Hp]%find_Some_elem.
  apply elem_of_lookup_imap in Hin as (i & this & -> & Hi).
  split; [done|]. by apply bool_decide_eq_true in Hp.
Qed.

Lemma getPlayersPlot_None (pool : list Plot) (p : Player) :
  getPlayersPlot pool p = None ↔ ∀ this, this ∈ pool → getPlayer this ≠ Some p.
Proof.
  unfold getPlayersPlot. rewrite find_None_iff. split.
  - intros Hall this Hthis Hp.
    apply list_elem_of_lookup in Hthis as [i Hi].
    assert ((i, this) ∈ imap pair pool) as Hin
      by (apply elem_of_lookup_imap; eauto).
    apply Hall in Hin. cbn in Hin. by apply bool_decide_eq_false in Hin.
  - intros Hall [i this] Hin.
    apply elem_of_lookup_imap in Hin as (i' & this' & [= -> ->] & Hi).
    apply bool_decide_eq_false. apply Hall.
    by eapply list_elem_of_lookup_2.
Qed.

Lemma placeStructure_unfold (p : Player) (structureId : string) (cf : CFrame)
    (structureUUID : option string) (pool : list Plot) (w : World) :
  placeStructure p structureId cf structureUUID (pool, w) =
  match getPlayersPlot pool p with
  | None => (Throw (PlotNotFound (Name p)), (pool, w))
  | Some ref =>
    match getStructureById structureId with
    | None => (Throw (StructureNotFound structureId), (pool, w))
    | Some st =>
      on_plot ref
        (addStructure {| self := next_instance w;
                         uuid := default "" structureUUID;
                         structure := st |} cf false)
        (pool, (new_StructureInstance (default "" structureUUID) st w).2)
    end
  end.
Proof.
  unfold placeStructure, getPlayersPlot. run.
  destruct (List.find _ _); run; [|done].
  by destruct (getStructureById structureId).
Qed.

(** C8.  [placeStructure] throws, with the pool of plots and the world as
    they were, when no plot of the pool is assigned to the player and when
    the structure id is not in the catalog.  Otherwise it makes a new
    structure instance and calls [addStructure] on the plot of the pool that
    is assigned to the player, with the given transform and the platform
    flag left at its default. *)
Theorem placeStructure_routes (p : Player) (structureId : string)
    (cf : CFrame) (structureUUID : option string) (pool : list Plot)
    (w : World) :
  ((∀ this, this ∈ pool → getPlayer this ≠ Some p) →
   placeStructure p structureId cf structureUUID (pool, w)
   = (Throw (PlotNotFound (Name p)), (pool, w)))
  ∧ (getStructureById structureId = None →
     ∃ e, placeStructure p structureId cf structureUUID (pool, w)
          = (Throw e, (pool, w))
          ∧ (is_Some (getPlayersPlot pool p) →
             e = StructureNotFound structureId))
  ∧ (∀ ref st,
       getPlayersPlot pool p = Some ref →
       getStructureById structureId = Some st →
       pool !! ref.1 = Some ref.2
       ∧ getPlayer ref.2 = Some p
       ∧ ∃ si w1,
           new_StructureInstance (default "" structureUUID) st w = (Ok si, w1)
           ∧ placeStructure p structureId cf structureUUID (pool, w)
             = on_plot ref (addStructure si cf false) (pool, w1)).
Proof.
  rewrite placeStructure_unfold. split; [|split].
  - intros Hnone%getPlayersPlot_None. by rewrite Hnone.
  - intros ->. destruct (getPlayersPlot pool p) as [ref|].
    + eexists. split; [done|done].
    + eexists. split; [done|]. by intros [? ?].
  - intros ref st Href Hst. rewrite Href, Hst.
    destruct (getPlayersPlot_Some _ _ _ Href) as [Hlookup Hplayer].
    split; [done|]. split; [done|]. by eexists _, _.
Qed.

Lemma find_imap_insert (p : Player) (h : nat → nat) (pool : list Plot)
    (r : nat * Plot) :
  List.find (λ e : nat * Plot, bool_decide (getPlayer e.2 = Some p))
    (imap (λ j x, (h j, x)) pool) = Some r →
  ∃ i, r.1 = h i
       ∧ pool !! i = Some r.2
       ∧ ∀ this', player this' = player r.2 →
           List.find (λ e : nat * Plot, bool_decide (getPlayer e.2 = Some p))
             (imap (λ j x, (h j, x)) (<[i := this']> pool))
           = Some (h i, this').
Proof.
  revert h. induction pool as [|x pool IH]; intros h; [done|].
  cbn [imap List.find].
  destruct (bool_decide (getPlayer (h 0, x).2 = Some p)) eqn:Hx.
  - intros [= <-]. exists 0. split; [done|]. split; [done|].
    intros this' Hsame. cbn [insert list_insert imap List.find].
    cbn in Hx. unfold getPlayer in *. cbn. rewrite Hsame. cbn. by rewrite Hx.
  - intros Hfind. apply (IH (h ∘ S)) in Hfind as (i & Hi & Hlookup & Hins).
    exists (S i). split; [done|]. split; [done|].
    intros this' Hsame. cbn [insert list_insert imap List.find].
    rewrite Hx. by apply (Hins this').
Qed.

(** The plot object of a player may change; as long as it keeps its player
    it is still the one [getPlayersPlot] finds. *)
Lemma getPlayersPlot_insert (pool : list Plot) (p : Player) (ref : nat * Plot)
    (this' : Plot) :
  getPlayersPlot pool p = Some ref →
  player this' = player ref.2 →
  getPlayersPlot (<[ref.1 := this']> pool) p = Some (ref.1, this').
Proof.
  unfold getPlayersPlot. intros Hfind Hsame.
  apply (find_imap_insert p (λ j, j)) in Hfind as (i & -> & _ & Hins).
  by apply Hins.
Qed.

Lemma addStructure_Ok (si : IStructureInstance) (cf : CFrame) (rel : bool)
    (this this' : Plot) (w w' : World) :
  addStructure si cf rel (this, w) = (Ok tt, (this', w')) →
  this' = set_structureList
            (LinkedList.add on_duplicate (uuid si) si (structureList this))
            this
  ∧ next_instance w' = next_instance w.
Proof.
  rewrite addStructure_unfold.
  repeat case_match; intros [= <- <-]; done.
Qed.

Lemma addStructure_checks_pass (si : IStructureInstance) (cf : CFrame)
    (this : Plot) (w : World) (hb pp : Part) :
  PrimaryPart (model (structure si)) = Some hb →
  hitboxIsCollidedInPlot hb (instance this) (characters w) w = false →
  PrimaryPart (Clone (model (structure si))) = Some pp →
  (addStructure si cf false (this, w)).1 = Ok tt.
Proof.
  intros Hhb Hfree Hpp. rewrite addStructure_unfold, Hhb, Hfree. cbn.
  by rewrite Hpp.
Qed.

(** One placement without uuid, for a player who has a plot and a structure
    id of the catalog. *)
Lemma placeStructure_without_uuid_once (p : Player) (structureId : string)
    (cf : CFrame) (pool : list Plot) (w : World) (ref : nat * Plot)
    (st : IStructure) :
  getPlayersPlot pool p = Some ref →
  getStructureById structureId = Some st →
  let si := {| self := next_instance w; uuid := ""; structure := st |} in
  let w1 := (new_StructureInstance "" st w).2 in
  let this' := set_structureList
                 (LinkedList.add on_duplicate "" si (structureList ref.2))
                 ref.2 in
  placeStructure p structureId cf None (pool, w)
  = on_plot ref (addStructure si cf false) (pool, w1)
  ∧ (∀ pool' w',
       placeStructure p structureId cf None (pool, w) = (Ok tt, (pool', w')) →
       pool' = <[ref.1 := this']> pool
       ∧ pool' !! ref.1 = Some this'
       ∧ getPlayersPlot pool' p = Some (ref.1, this')
       ∧ next_instance w' = S (next_instance w)
       ∧ ∃ evs, trace w' = trace w ++ evs ++ [EvRegister "" (self si)]
                ∧ Forall (λ ev, is_register ev = false) evs)
  ∧ (∀ hb pp,
       PrimaryPart (model st) = Some hb →
       hitboxIsCollidedInPlot hb (instance ref.2) (characters w1) w1 = false →
       PrimaryPart (Clone (model st)) = Some pp →
       (placeStructure p structureId cf None (pool, w)).1 = Ok tt).
Proof.
  intros Href Hst. cbv zeta.
  rewrite placeStructure_unfold, Href, Hst.
  change (default "" None) with "".
  set (si := {| self := next_instance w; uuid := ""; structure := st |}).
  set (w1 := (new_StructureInstance "" st w).2).
  split; [done|]. unfold on_plot. cbn [fst snd].
  pose proof (addStructure_registration si cf false ref.2 w1) as Hreg.
  pose proof (addStructure_checks_pass si cf ref.2 w1) as Hpass.
  destruct (addStructure si cf false (ref.2, w1)) as [r [this1 w2]] eqn:Hadd.
  split.
  - intros pool' w' [= -> <- <-].
    destruct Hreg as [_ Hevs].
    apply addStructure_Ok in Hadd as [-> Hnext].
    destruct (getPlayersPlot_Some _ _ _ Href) as [Hlookup _].
    split; [done|]. split.
    { apply list_lookup_insert_eq. by eapply lookup_lt_Some. }
    split; [by apply getPlayersPlot_insert|].
    split; [exact Hnext|exact Hevs].
  - intros hb pp Hhb Hfree Hpp. by apply (Hpass hb pp).
Qed.

(** C10.  When [placeStructure] is called without a uuid, for a player who
    has a plot and a structure id of the catalog, the structure instance it
    makes has the empty string as uuid and is the one handed to
    [addStructure] on the player's plot.  The call returns when the checks
    of [addStructure] pass, and whenever it returns that instance has been
    added to the plot's structure list under the key [""], as the last call
    made.  So two such placements in a row register two different
    instances under the same key: the second one meets the key of the
    first, and goes to the list's duplicate-key path when the key was new
    to the list before the first. *)
Theorem placeStructure_without_uuid (p : Player) (structureId : string)
    (cf : CFrame) (pool : list Plot) (w : World) (ref : nat * Plot)
    (st : IStructure) :
  getPlayersPlot pool p = Some ref →
  getStructureById structureId = Some st →
  let si := {| self := next_instance w; uuid := ""; structure := st |} in
  let w1 := (new_StructureInstance "" st w).2 in
  let l := structureList ref.2 in
  uuid si = default "" None
  ∧ placeStructure p structureId cf None (pool, w)
    = on_plot ref (addStructure si cf false) (pool, w1)
  ∧ (∀ hb pp,
       PrimaryPart (model st) = Some hb →
       hitboxIsCollidedInPlot hb (instance ref.2) (characters w1) w1 = false →
       PrimaryPart (Clone (model st)) = Some pp →
       (placeStructure p structureId cf None (pool, w)).1 = Ok tt)
  ∧ (∀ pool' w',
       placeStructure p structureId cf None (pool, w) = (Ok tt, (pool', w')) →
       (structureList <$> pool' !! ref.1)
       = Some (LinkedList.add on_duplicate "" si l)
       ∧ (LinkedList.has "" l = false →
          (structureList <$> pool' !! ref.1) = Some (l ++ [("", si)]))
       ∧ (∃ evs, trace w' = trace w ++ evs ++ [EvRegister "" (self si)]
                 ∧ Forall (λ ev, is_register ev = false) evs)
       ∧ ∀ structureId2 cf2 pool'' w'',
           placeStructure p structureId2 cf2 None (pool', w')
           = (Ok tt, (pool'', w'')) →
           ∃ st2,
             getStructureById structureId2 = Some st2
             ∧ let si2 := {| self := S (next_instance w); uuid := "";
                             structure := st2 |} in
               (structureList <$> pool'' !! ref.1)
               = Some (LinkedList.add on_duplicate "" si2
                         (LinkedList.add on_duplicate "" si l))
               ∧ (LinkedList.has "" l = false →
                  (structureList <$> pool'' !! ref.1)
                  = Some (on_duplicate "" si2 (l ++ [("", si)])))
               ∧ ∃ evs, trace w''
                        = trace w' ++ evs ++ [EvRegister "" (self si2)]
                        ∧ Forall (λ ev, is_register ev = false) evs).
Proof.
  intros Href Hst. cbv zeta.
  destruct (placeStructure_without_uuid_once p structureId cf pool w ref st
              Href Hst) as (Hcall & Hreturn & Hpass).
  split; [done|]. split; [exact Hcall|]. split; [exact Hpass|].
  intros pool' w' Hrun.
  destruct (Hreturn pool' w' Hrun) as (_ & Hlookup & Href' & Hnext & Hevs).
  assert (∀ k (v : IStructureInstance) (l : list (string * IStructureInstance)),
            LinkedList.has k l = false →
            LinkedList.add on_duplicate k v l = l ++ [(k, v)]) as Hfresh
    by (intros k v l Hk; unfold LinkedList.add; by rewrite Hk).
  split; [by rewrite Hlookup|]. split.
  { intros Hnew. by rewrite Hlookup, <- Hfresh. }
  split; [exact Hevs|].
  intros structureId2 cf2 pool'' w'' Hrun2.
  destruct (getStructureById structureId2) as [st2|] eqn:Hst2.
  2: { rewrite placeStructure_unfold, Href', Hst2 in Hrun2. done. }
  exists st2. split; [done|].
  destruct (placeStructure_without_uuid_once p structureId2 cf2 pool' w'
              _ st2 Href' Hst2) as (_ & Hreturn2 & _).
  destruct (Hreturn2 pool'' w'' Hrun2) as (_ & Hlookup2 & _ & _ & Hevs2).
  rewrite Hnext in Hlookup2, Hevs2. cbn [fst snd structureList
    set_structureList] in Hlookup2.
  split; [by rewrite Hlookup2|]. split; [|exact Hevs2].
  intros Hnew. rewrite Hlookup2. cbn. f_equal.
  rewrite (Hfresh _ _ _ Hnew). unfold LinkedList.add at 1.
  assert (LinkedList.has ""
            (structureList ref.2
             ++ [("", {| self := next_instance w; uuid := "";
                         structure := st |})]) = true) as ->; [|done].
  unfold LinkedList.has. apply bool_decide_eq_true.
  rewrite fmap_app. apply elem_of_app. right. by left.
Qed.

(** * Further properties *)

(** ** What [addStructure] writes *)

Lemma get_model_update_ne (handle h : nat) (f : Model → Model) (w : World) :
  h ≠ handle → get_model h (update_model handle f w) = get_model h w.
Proof.
  intros Hne. unfold get_model, update_model; cbn.
  by rewrite list_lookup_alter_ne.
Qed.

Lemma get_model_update_eq (handle : nat) (f : Model → Model) (w : World) :
  get_model handle (update_model handle f w) = f <$> get_model handle w.
Proof.
  unfold get_model, update_model; cbn. rewrite list_lookup_alter_eq.
  by destruct (objects w !! handle) as [[m|]|].
Qed.

Lemma get_model_after_spawn_ne (si : IStructureInstance) (plot h : nat)
    (w : World) :
  h ≠ length (objects w) → get_model h (after_spawn si plot w) = get_model h w.
Proof.
  intros Hne. unfold get_model, after_spawn, spawn; cbn.
  destruct (decide (h < length (objects w))).
  - by rewrite lookup_app_l.
  - rewrite !lookup_ge_None_2; [done|lia|].
    rewrite length_app. cbn. lia.
Qed.

Lemma get_model_after_pivot (handle h : nat) (cf : CFrame) (w : World) :
  get_model h (after_pivot handle cf w)
  = get_model h (update_model handle (with_Pivot cf) w).
Proof. done. Qed.

Lemma get_model_log (e : Event) (h : nat) (w : World) :
  get_model h (log e w) = get_model h w.
Proof. done. Qed.

Lemma get_model_after_query (hb : Part) (plot h : nat) (w : World) :
  get_model h (after_query hb plot w) = get_model h w.
Proof. done. Qed.

Lemma addStructure_get_model_ne (si : IStructureInstance) (cf : CFrame)
    (rel : bool) (this : Plot) (w : World) (h : nat) :
  h ≠ length (objects w) →
  get_model h (addStructure si cf rel (this, w)).2.2 = get_model h w.
Proof.
  intros Hne. rewrite addStructure_unfold.
  destruct (PrimaryPart (model (structure si))) as [hb|]; [|done].
  destruct (hitboxIsCollidedInPlot hb (instance this) (characters w) w);
    [done|].
  destruct (PrimaryPart (Clone (model (structure si)))).
  2: { lazy beta iota zeta. cbn [fst snd].
       by rewrite get_model_after_spawn_ne. }
  destruct (final_cframe rel (instance this) cf w) as [cf'|];
    lazy beta iota zeta; cbn [fst snd].
  - rewrite get_model_log, get_model_after_pivot.
    unfold after_anchor. rewrite !get_model_update_ne by done.
    by rewrite get_model_after_spawn_ne.
  - unfold after_anchor. rewrite !get_model_update_ne by done.
    by rewrite get_model_after_spawn_ne.
Qed.

Lemma addStructure_keeps_player (si : IStructureInstance) (cf : CFrame)
    (rel : bool) (this : Plot) (w : World) :
  player (addStructure si cf rel (this, w)).2.1 = player this.
Proof.
  rewrite addStructure_unfold.
  repeat (case_match; cbn; try done).
Qed.

(** X1.  Whatever its outcome, [addStructure] leaves every model that was
    in the world as it was (it destroys, moves and re-parents none), writes
    the [model] field of no instance but the one it was given, and leaves
    the platforms, the characters, the plot's player and the plot's
    instance untouched. *)
Theorem addStructure_frame (si : IStructureInstance) (cf : CFrame)
    (rel : bool) (this : Plot) (w : World) :
  let s' := (addStructure si cf rel (this, w)).2 in
  (∀ h, h ≠ length (objects w) → get_model h s'.2 = get_model h w)
  ∧ (∀ i, i ≠ self si → instances s'.2 !! i = instances w !! i)
  ∧ platforms s'.2 = platforms w
  ∧ characters s'.2 = characters w
  ∧ next_instance s'.2 = next_instance w
  ∧ player s'.1 = player this
  ∧ instance s'.1 = instance this.
Proof.
  cbv zeta. split; [intros h; apply addStructure_get_model_ne|].
  assert ((∀ i, i ≠ self si →
                instances (addStructure si cf rel (this, w)).2.2 !! i
                = instances w !! i)
          ∧ platforms (addStructure si cf rel (this, w)).2.2 = platforms w
          ∧ characters (addStructure si cf rel (this, w)).2.2 = characters w
          ∧ next_instance (addStructure si cf rel (this, w)).2.2
            = next_instance w) as (Hi & Hp & Hc & Hn).
  { rewrite addStructure_unfold.
    assert (∀ i, i ≠ self si →
                 <[self si:=length (objects w)]> (instances w) !! i
                 = instances w !! i) as Hinstances
      by (intros i Hne; by rewrite lookup_insert_ne).
    repeat (case_match; cbn; try done). }
  repeat (split; [done|]).
  split; [apply addStructure_keeps_player|apply addStructure_keeps_instance].
Qed.

Lemma addStructure_success_model (si : IStructureInstance) (cf : CFrame)
    (rel : bool) (this this' : Plot) (w w' : World) :
  addStructure si cf rel (this, w) = (Ok tt, (this', w')) →
  ∃ pp cf',
    PrimaryPart (Clone (model (structure si))) = Some pp
    ∧ final_cframe rel (instance this) cf w = Some cf'
    ∧ get_model (length (objects w)) w'
      = Some {| Parent := Some (instance this);
                PrimaryPart := Some {| Anchored := true; CanCollide := false;
                                       Part_CFrame := Part_CFrame pp |};
                Pivot := cf' |}
    ∧ instances w' = <[self si := length (objects w)]> (instances w)
    ∧ this' = set_structureList
                (LinkedList.add on_duplicate (uuid si) si (structureList this))
                this.
Proof.
  intros Hrun. rewrite addStructure_unfold in Hrun.
  destruct (PrimaryPart (model (structure si))) as [hb|]; [|done].
  destruct (hitboxIsCollidedInPlot hb (instance this) (characters w) w);
    [done|].
  pose proof (get_model_spawned si (instance this)
                (after_query hb (instance this) w)) as Hget.
  change (objects (after_query hb (instance this) w)) with (objects w)
    in Hget.
  destruct (PrimaryPart (Clone (model (structure si)))) as [pp|]; [|done].
  destruct (final_cframe rel (instance this) cf w) as [cf'|] eqn:Hcf;
    [|done].
  lazy beta iota zeta in Hrun. injection Hrun as <- <-.
  exists pp, cf'. split; [done|]. split; [done|]. split; [|done].
  rewrite get_model_log, get_model_after_pivot, get_model_update_eq.
  by rewrite get_model_after_anchor, Hget.
Qed.

Lemma addStructure_success_children (si : IStructureInstance) (cf : CFrame)
    (rel : bool) (this this' : Plot) (w w' : World) (h : nat) :
  addStructure si cf rel (this, w) = (Ok tt, (this', w')) →
  h ∈ GetChildren (instance this) w'
  ↔ h ∈ GetChildren (instance this) w ∨ h = length (objects w).
Proof.
  intros Hrun.
  pose proof (addStructure_get_model_ne si cf rel this w h) as Hframe.
  rewrite Hrun in Hframe. cbn [fst snd] in Hframe.
  apply addStructure_success_model in Hrun
    as (pp & cf' & _ & _ & Hnew & _ & _).
  rewrite !elem_of_GetChildren.
  destruct (decide (h = length (objects w))) as [->|Hne].
  - rewrite Hnew. split; [by right|]. intros _. eauto.
  - rewrite Hframe by done. split; [by left|].
    by intros [?|?].
Qed.

(** X2.  When [addStructure] succeeds, the model it spawned is a new child
    of the plot's structures folder, the only new one; its primary part is
    anchored and does not collide; its pivot is the requested transform, or
    the platform's transform composed with it when the platform flag is
    set; and the instance's [model] field points to it. *)
Theorem addStructure_success_places_model (si : IStructureInstance)
    (cf : CFrame) (rel : bool) (this this' : Plot) (w w' : World) :
  addStructure si cf rel (this, w) = (Ok tt, (this', w')) →
  let handle := length (objects w) in
  ∃ pp cf',
    PrimaryPart (Clone (model (structure si))) = Some pp
    ∧ (if rel
       then ∃ platform, FindPlatform (instance this) w = Some platform
                        ∧ cf' = cf_mul (Part_CFrame platform) cf
       else cf' = cf)
    ∧ get_model handle w = None
    ∧ get_model handle w'
      = Some {| Parent := Some (instance this);
                PrimaryPart := Some {| Anchored := true; CanCollide := false;
                                       Part_CFrame := Part_CFrame pp |};
                Pivot := cf' |}
    ∧ instances w' !! self si = Some handle
    ∧ ∀ h, h ∈ GetChildren (instance this) w'
           ↔ h ∈ GetChildren (instance this) w ∨ h = handle.
Proof.
  intros Hrun. cbv zeta.
  destruct (addStructure_success_model _ _ _ _ _ _ _ Hrun)
    as (pp & cf' & Hpp & Hcf & Hnew & Hinstances & _).
  exists pp, cf'. split; [done|]. split.
  { unfold final_cframe in Hcf. destruct rel; [|by injection Hcf as <-].
    destruct (FindPlatform (instance this) w) as [platform|]; [|done].
    injection Hcf as <-. by exists platform. }
  split; [apply get_model_fresh|]. split; [done|].
  split; [rewrite Hinstances; apply lookup_insert_eq|].
  intros h. by eapply addStructure_success_children.
Qed.

(** X3.  On a plot that has a platform, placing relative to the platform is
    placing at the platform's transform composed with the requested one:
    the two calls have the same outcome and leave the same state. *)
Theorem addStructure_relative_is_composed (si : IStructureInstance)
    (cf : CFrame) (this : Plot) (w : World) (platform : Part) :
  FindPlatform (instance this) w = Some platform →
  addStructure si cf true (this, w)
  = addStructure si (cf_mul (Part_CFrame platform) cf) false (this, w).
Proof.
  intros Hplatform. rewrite !addStructure_unfold.
  unfold final_cframe. by rewrite Hplatform.
Qed.

(** X4.  For a given instance, plot, world and platform flag, the outcome
    of [addStructure] (success, or which error), the plot object it leaves
    and the [model] fields of the instances are the same for every
    requested transform. *)
Theorem addStructure_outcome_ignores_transform (si : IStructureInstance)
    (cf1 cf2 : CFrame) (rel : bool) (this : Plot) (w : World) :
  let r1 := addStructure si cf1 rel (this, w) in
  let r2 := addStructure si cf2 rel (this, w) in
  r1.1 = r2.1 ∧ r1.2.1 = r2.2.1 ∧ instances r1.2.2 = instances r2.2.2.
Proof.
  cbv zeta. rewrite !addStructure_unfold.
  destruct (PrimaryPart (model (structure si))) as [hb|]; [|done].
  destruct (hitboxIsCollidedInPlot hb (instance this) (characters w) w);
    [done|].
  destruct (PrimaryPart (Clone (model (structure si)))); [|done].
  unfold final_cframe. destruct rel; [|done].
  by destruct (FindPlatform (instance this) w).
Qed.

(** X5.  [addStructure] does not look at whether the plot is assigned: on
    the same plot with another player, or none, it makes the same calls,
    leaves the same world and registers the same entry, and it succeeds in
    the one case exactly when it does in the other. *)
Theorem addStructure_ignores_assignment (si : IStructureInstance)
    (cf : CFrame) (rel : bool) (this : Plot) (w : World)
    (q : option Player) :
  let r1 := addStructure si cf rel (this, w) in
  let r2 := addStructure si cf rel (set_player q this, w) in
  r2.2.2 = r1.2.2
  ∧ r2.2.1 = set_player q r1.2.1
  ∧ (r1.1 = Ok tt ↔ r2.1 = Ok tt).
Proof.
  cbv zeta. rewrite !addStructure_unfold.
  change (instance (set_player q this)) with (instance this).
  change (structureList (set_player q this)) with (structureList this).
  destruct (PrimaryPart (model (structure si))) as [hb|]; [|done].
  destruct (hitboxIsCollidedInPlot hb (instance this) (characters w) w);
    [done|].
  destruct (PrimaryPart (Clone (model (structure si)))); [|done].
  by destruct (final_cframe rel (instance this) cf w).
Qed.

(** ** Sequences of calls *)

Lemma call_keeps_assignment (c : PlotCall) (s : Plot * World) (p : Player) :
  player s.1 = Some p →
  player (call c s).2.1 = Some p ∧ instance (call c s).2.1 = instance s.1.
Proof.
  destruct s as [this w]. cbn [fst snd]. intros Hp.
  destruct c as [q| |si cf rel|]; cbn [call].
  - unfold assignPlayer. run. by rewrite Hp.
  - unfold unassignPlayer. run. rewrite Hp. by rewrite clear_unfold.
  - by rewrite addStructure_keeps_player, addStructure_keeps_instance.
  - by rewrite clear_unfold.
Qed.

Lemma calls_keep_assignment (l : list PlotCall) (s : Plot * World)
    (p : Player) :
  player s.1 = Some p →
  player (calls l s).1 = Some p ∧ instance (calls l s).1 = instance s.1.
Proof.
  revert s. induction l as [|c l IH]; intros s Hp; [done|].
  destruct (call_keeps_assignment c s p Hp) as [Hp' Hinst].
  destruct (IH (call c s).2 Hp') as [Hp'' Hinst'].
  unfold calls in *. cbn [foldl]. split; [done|congruence].
Qed.

(** X6.  A plot has its player for good.  On an unassigned plot
    [assignPlayer] succeeds; after it, whatever calls of [assignPlayer],
    [unassignPlayer], [addStructure] and [clear] follow, and whether they
    return or throw, the plot still has that player and its instance, and a
    further [assignPlayer] throws "already assigned" and changes nothing. *)
Theorem plot_stays_assigned (p q : Player) (l : list PlotCall) (this : Plot)
    (w : World) :
  player this = None →
  let s := calls l (assignPlayer p (this, w)).2 in
  (assignPlayer p (this, w)).1 = Ok tt
  ∧ getPlayer s.1 = Some p
  ∧ isAssigned s.1 = true
  ∧ instance s.1 = instance this
  ∧ assignPlayer q s = (Throw (AlreadyAssigned (Name q)), s).
Proof.
  intros Hnone. cbv zeta.
  assert (assignPlayer p (this, w)
          = (Ok tt, (set_player (Some p) this, w))) as ->.
  { unfold assignPlayer. run. by rewrite Hnone. }
  cbn [fst snd].
  destruct (calls_keep_assignment l (set_player (Some p) this, w) p eq_refl)
    as [Hp Hinst].
  split; [done|]. split; [done|].
  split; [unfold isAssigned; by rewrite Hp|]. split; [done|].
  destruct (calls l (set_player (Some p) this, w)) as [this' w'].
  unfold assignPlayer. run. cbn in Hp. by rewrite Hp.
Qed.

(** ** What [clear] destroys and what it reports *)

Lemma destroy_get_model (si : IStructureInstance) (w : World) (h : nat)
    (m : Model) :
  get_model h (destroy si w).2 = Some m
  ↔ get_model h w = Some m ∧ instances w !! self si ≠ Some h.
Proof.
  unfold destroy, get_model. run.
  destruct (instances w !! self si) as [h'|]; cbn.
  2: { split; [by intros ?; split|by intros [? _]]. }
  destruct (decide (h' = h)) as [->|Hne].
  - destruct (decide (h < length (objects w))).
    + rewrite list_lookup_insert_eq by done.
      split; [done|by intros [_ ?]].
    + rewrite list_insert_ge by lia.
      rewrite lookup_ge_None_2 by lia.
      split; [done|by intros [? _]].
  - rewrite list_lookup_insert_ne by done.
    split; [intros ?; split; [done|congruence]|by intros [? _]].
Qed.

Lemma destroy_instances (si : IStructureInstance) (w : World) :
  instances (destroy si w).2 = delete (self si) (instances w).
Proof.
  unfold destroy. run.
  destruct (instances w !! self si) eqn:Hi; cbn; [done|].
  by rewrite delete_id.
Qed.

Lemma elem_of_registered_models (l : list (string * IStructureInstance))
    (w : World) (h : nat) :
  h ∈ registered_models l w
  ↔ ∃ e, e ∈ l ∧ instances w !! self e.2 = Some h.
Proof. unfold registered_models. apply list_elem_of_omap. Qed.

Lemma destroy_all_survivors (l : list (string * IStructureInstance))
    (w : World) (h : nat) (m : Model) :
  get_model h (destroy_all l w) = Some m
  ↔ get_model h w = Some m ∧ h ∉ registered_models l w.
Proof.
  revert w. induction l as [|e l IH]; intros w.
  { cbn. split; [|by intros [? _]]. intros Hm. split; [done|].
    apply not_elem_of_nil. }
  rewrite destroy_all_cons, IH, destroy_get_model.
  rewrite !elem_of_registered_models.
  setoid_rewrite destroy_instances.
  split.
  - intros [[Hm Hne] Hnot]. split; [done|].
    intros (e' & [->|He']%elem_of_cons & Hh); [done|].
    apply Hnot. exists e'. split; [done|].
    apply lookup_delete_Some. split; [|done]. congruence.
  - intros [Hm Hnot]. split; [split; [done|]|].
    + intros Hh. apply Hnot. exists e. split; [by left|done].
    + intros (e' & He' & [_ Hh]%lookup_delete_Some).
      apply Hnot. exists e'. split; [by right|done].
Qed.

Lemma GetChildren_destroy_all (l : list (string * IStructureInstance))
    (plot : nat) (w : World) (h : nat) :
  h ∈ GetChildren plot (destroy_all l w)
  ↔ h ∈ GetChildren plot w ∧ h ∉ registered_models l w.
Proof.
  rewrite !elem_of_GetChildren. setoid_rewrite destroy_all_survivors.
  split.
  - intros (m & [Hm Hnot] & Hparent). eauto.
  - intros [(m & Hm & Hparent) Hnot]. eauto.
Qed.

Lemma clear_result (this : Plot) (w : World) :
  ((clear (this, w)).1 = Ok tt
   ↔ GetChildren (instance this) (destroy_all (structureList this) w) = [])
  ∧ ((clear (this, w)).1 = Ok tt
     ∨ (clear (this, w)).1
       = Throw (ObjectLeakDetected (Name <$> player this))).
Proof.
  rewrite clear_unfold. cbn.
  destruct (GetChildren (instance this) _); naive_solver.
Qed.

(** X7.  [clear] returns normally exactly when every child of the plot's
    structures folder is the model of an instance of the structure list;
    otherwise it throws "object leak detected".  A child that no entry
    points to is never destroyed. *)
Theorem clear_ok_iff_no_orphan (this : Plot) (w : World) :
  ((clear (this, w)).1 = Ok tt
   ↔ ∀ h, h ∈ GetChildren (instance this) w →
          h ∈ registered_models (structureList this) w)
  ∧ ((clear (this, w)).1 = Ok tt
     ∨ (clear (this, w)).1
       = Throw (ObjectLeakDetected (Name <$> player this)))
  ∧ ∀ h, h ∈ GetChildren (instance this) w →
         h ∉ registered_models (structureList this) w →
         h ∈ GetChildren (instance this) (clear (this, w)).2.2.
Proof.
  destruct (clear_result this w) as [Hok Hkind].
  split; [|split; [done|]].
  - rewrite Hok. split.
    + intros Hnil h Hh.
      destruct (decide (h ∈ registered_models (structureList this) w))
        as [|Hnot]; [done|].
      assert (h ∈ GetChildren (instance this)
                    (destroy_all (structureList this) w)) as Hin
        by by apply GetChildren_destroy_all.
      rewrite Hnil in Hin. by apply elem_of_nil in Hin.
    + intros Hall. apply elem_of_nil_inv.
      intros h [Hh Hnot]%GetChildren_destroy_all. by apply Hnot, Hall.
  - intros h Hh Hnot. rewrite clear_unfold. cbn.
    by apply GetChildren_destroy_all.
Qed.

Lemma destroy_all_nothing (l : list (string * IStructureInstance))
    (w : World) :
  (∀ e, e ∈ l → instances w !! self e.2 = None) →
  objects (destroy_all l w) = objects w
  ∧ instances (destroy_all l w) = instances w.
Proof.
  revert w. induction l as [|e l IH]; intros w Hnone; [done|].
  rewrite destroy_all_cons.
  assert (objects (destroy e.2 w).2 = objects w
          ∧ instances (destroy e.2 w).2 = instances w) as [Ho Hi].
  { unfold destroy. run. rewrite Hnone by by left. done. }
  destruct (IH (destroy e.2 w).2) as [Ho' Hi'].
  { intros e' He'. rewrite Hi. apply Hnone. by right. }
  split; congruence.
Qed.

Lemma GetChildren_objects (plot : nat) (w1 w2 : World) :
  objects w1 = objects w2 → GetChildren plot w1 = GetChildren plot w2.
Proof. unfold GetChildren. by intros ->. Qed.

(** X8.  A second [clear] right after a first one destroys nothing more:
    it leaves the models and the [model] fields as the first one left
    them, and it ends as the first one did, reporting the same leak if
    there was one. *)
Theorem clear_twice (this : Plot) (w : World) :
  let s1 := (clear (this, w)).2 in
  (clear s1).1 = (clear (this, w)).1
  ∧ (clear s1).2.1 = this
  ∧ objects (clear s1).2.2 = objects s1.2
  ∧ instances (clear s1).2.2 = instances s1.2.
Proof.
  cbv zeta. rewrite !clear_unfold. cbn [fst snd].
  rewrite clear_unfold. cbn.
  destruct (destroy_all_nothing (structureList this)
              (destroy_all (structureList this) w)) as [Ho Hi].
  { intros [key value] He.
    by apply (destroy_all_registered _ w key value). }
  rewrite (GetChildren_objects _ _ _ Ho). done.
Qed.

(** ** Placing, then clearing *)

Lemma addStructure_keeps_tracked (si : IStructureInstance) (cf : CFrame)
    (rel : bool) (this this' : Plot) (w w' : World) :
  addStructure si cf rel (this, w) = (Ok tt, (this', w')) →
  uuid si ∉ (structureList this).*1 →
  self si ∉ (λ e, self e.2) <$> structureList this →
  (∀ h, h ∈ GetChildren (instance this) w →
        h ∈ registered_models (structureList this) w) →
  instance this' = instance this
  ∧ structureList this' = structureList this ++ [(uuid si, si)]
  ∧ ∀ h, h ∈ GetChildren (instance this') w' →
         h ∈ registered_models (structureList this') w'.
Proof.
  intros Hrun Hkey Hself Htracked.
  pose proof (λ h, addStructure_success_children si cf rel this this' w w' h
                     Hrun) as Hchildren.
  apply addStructure_success_model in Hrun
    as (pp & cf' & _ & _ & _ & Hinstances & ->).
  cbn [instance structureList set_structureList].
  unfold LinkedList.add, LinkedList.has.
  rewrite bool_decide_eq_false_2 by done.
  split; [done|]. split; [done|].
  intros h Hh. apply elem_of_registered_models. rewrite Hinstances.
  apply Hchildren in Hh as [Hh| ->].
  - apply Htracked, elem_of_registered_models in Hh as (e & He & Hmodel).
    exists e. split; [apply elem_of_app; by left|].
    rewrite lookup_insert_ne; [done|].
    intros Heq. apply Hself. rewrite Heq.
    apply list_elem_of_fmap. by exists e.
  - exists (uuid si, si). split; [apply elem_of_app; right; by left|].
    apply lookup_insert_eq.
Qed.

Lemma addStructures_keep_tracked
    (l : list (IStructureInstance * CFrame * bool)) (this this' : Plot)
    (w w' : World) :
  addStructures l (this, w) = (Ok tt, (this', w')) →
  NoDup ((structureList this).*1 ++ (uuid <$> l.*1.*1)) →
  NoDup (((λ e, self e.2) <$> structureList this) ++ (self <$> l.*1.*1)) →
  (∀ h, h ∈ GetChildren (instance this) w →
        h ∈ registered_models (structureList this) w) →
  instance this' = instance this
  ∧ ∀ h, h ∈ GetChildren (instance this') w' →
         h ∈ registered_models (structureList this') w'.
Proof.
  unfold addStructures. revert this w.
  induction l as [|[[si cf] rel] l IH];
    intros this w Hrun Hkeys Hselfs Htracked.
  { cbn in Hrun. by injection Hrun as -> ->. }
  cbn in Hrun. unfold mbind, M_bind in Hrun. cbn in Hrun.
  destruct (addStructure si cf rel (this, w)) as [[[]|e] [this1 w1]] eqn:Hadd;
    [|done].
  cbn in Hkeys, Hselfs.
  apply addStructure_keeps_tracked in Hadd as (Hinst & Hlist & Htracked1);
    [|by apply NoDup_app in Hkeys as (_ & Hdisj & _);
        intros Hin; apply (Hdisj _ Hin); left
     |by apply NoDup_app in Hselfs as (_ & Hdisj & _);
        intros Hin; apply (Hdisj _ Hin); left
     |done].
  apply IH in Hrun as [Hinst' Htracked'].
  - split; [congruence|done].
  - rewrite Hlist, fmap_app. cbn. by rewrite <- app_assoc.
  - rewrite Hlist, fmap_app. cbn. by rewrite <- app_assoc.
  - done.
Qed.

(** X9.  Placing, then clearing, leaves nothing behind.  On a new plot
    whose structures folder is empty, after a run of successful placements
    of distinct instances under distinct uuids, [clear] returns normally
    and the folder is empty again. *)
Theorem clear_after_placements
    (l : list (IStructureInstance * CFrame * bool)) (plot : nat)
    (this : Plot) (w0 w : World) :
  GetChildren plot w0 = [] →
  addStructures l (new_Plot plot, w0) = (Ok tt, (this, w)) →
  NoDup (uuid <$> l.*1.*1) →
  NoDup (self <$> l.*1.*1) →
  (clear (this, w)).1 = Ok tt
  ∧ GetChildren plot (clear (this, w)).2.2 = [].
Proof.
  intros Hempty Hrun Hkeys Hselfs.
  apply addStructures_keep_tracked in Hrun as [Hinst Htracked];
    [|done|done|].
  2: { cbn. intros h Hh. rewrite Hempty in Hh. by apply elem_of_nil in Hh. }
  cbn in Hinst.
  assert (GetChildren (instance this)
            (destroy_all (structureList this) w) = []) as Hnil.
  { apply elem_of_nil_inv.
    intros h [Hh Hnot]%GetChildren_destroy_all. by apply Hnot, Htracked. }
  split; [by apply clear_result|].
  rewrite clear_unfold. cbn. by rewrite <- Hinst.
Qed.

(** X10.  A placement that throws "platform is undefined" makes the next
    [clear] fail.  When the instance is not one of the structure list and
    every [model] field refers to a model that was made, the model spawned
    before the throw is a child that no entry points to: [clear] leaves it
    in the folder and throws "object leak detected". *)
Theorem clear_after_missing_platform (si : IStructureInstance) (cf : CFrame)
    (rel : bool) (this this' : Plot) (w w' : World) :
  addStructure si cf rel (this, w) = (Throw MissingPlatform, (this', w')) →
  self si ∉ (λ e, self e.2) <$> structureList this →
  (∀ i h, instances w !! i = Some h → h < length (objects w)) →
  this' = this
  ∧ (clear (this', w')).1 = Throw (ObjectLeakDetected (Name <$> player this))
  ∧ length (objects w) ∈ GetChildren (instance this) (clear (this', w')).2.2.
Proof.
  intros Hrun Hself Hwf.
  rewrite addStructure_unfold in Hrun.
  destruct (PrimaryPart (model (structure si))) as [hb|]; [|done].
  destruct (hitboxIsCollidedInPlot hb (instance this) (characters w) w);
    [done|].
  pose proof (get_model_spawned si (instance this)
                (after_query hb (instance this) w)) as Hget.
  change (objects (after_query hb (instance this) w)) with (objects w)
    in Hget.
  destruct (PrimaryPart (Clone (model (structure si)))) as [pp|]; [|done].
  destruct (final_cframe rel (instance this) cf w) as [cf'|]; [done|].
  lazy beta iota zeta in Hrun. injection Hrun as <- <-.
  split; [done|].
  assert (length (objects w)
          ∈ GetChildren (instance this)
              (destroy_all (structureList this)
                 (after_anchor (length (objects w))
                    (after_spawn si (instance this)
                       (after_query hb (instance this) w))))) as Hleft.
  { apply GetChildren_destroy_all. split.
    - rewrite elem_of_GetChildren, get_model_after_anchor, Hget. cbn. eauto.
    - intros (e & He & Hmodel)%elem_of_registered_models.
      cbn in Hmodel. rewrite lookup_insert_ne in Hmodel.
      + apply Hwf in Hmodel. lia.
      + intros Heq. apply Hself. rewrite Heq.
        apply list_elem_of_fmap. by exists e. }
  split; [|by rewrite clear_unfold].
  destruct (clear_result this
              (after_anchor (length (objects w))
                 (after_spawn si (instance this)
                    (after_query hb (instance this) w)))) as [Hok [Hres|Hres]];
    [|done].
  apply Hok in Hres. rewrite Hres in Hleft. by apply elem_of_nil in Hleft.
Qed.

(** ** The plot service *)

Lemma on_plot_addStructure (ref : nat * Plot) (si : IStructureInstance)
    (cf : CFrame) (rel : bool) (pool : list Plot) (w : World) :
  pool !! ref.1 = Some ref.2 →
  let r := on_plot ref (addStructure si cf rel) (pool, w) in
  length r.2.1 = length pool
  ∧ (getPlayer <$> r.2.1) = (getPlayer <$> pool)
  ∧ (instance <$> r.2.1) = (instance <$> pool)
  ∧ (∀ j, j ≠ ref.1 → r.2.1 !! j = pool !! j)
  ∧ (∀ e, r.1 = Throw e → r.2.1 = pool).
Proof.
  intros Hlookup. cbv zeta. unfold on_plot. cbn [fst snd].
  pose proof (addStructure_keeps_player si cf rel ref.2 w) as Hplayer.
  pose proof (addStructure_keeps_instance si cf rel ref.2 w) as Hinst.
  destruct (addStructure si cf rel (ref.2, w)) as [r [this' w']] eqn:Hrun.
  cbn [fst snd] in *.
  split; [apply length_insert|].
  split; [|split; [|split]].
  - rewrite list_fmap_insert. apply list_insert_id.
    rewrite list_lookup_fmap, Hlookup. cbn. unfold getPlayer. congruence.
  - rewrite list_fmap_insert. apply list_insert_id.
    rewrite list_lookup_fmap, Hlookup. cbn. congruence.
  - intros j Hne. by rewrite list_lookup_insert_ne.
  - intros e ->. apply addStructure_failure in Hrun as (-> & _).
    by apply list_insert_id.
Qed.

(** X11.  A placement request that fails, for whatever reason, leaves every
    plot of the pool as it was. *)
Theorem placeStructure_failure_keeps_pool (p : Player) (structureId : string)
    (cf : CFrame) (structureUUID : option string) (pool pool' : list Plot)
    (w w' : World) (e : Error) :
  placeStructure p structureId cf structureUUID (pool, w)
  = (Throw e, (pool', w')) →
  pool' = pool.
Proof.
  rewrite placeStructure_unfold.
  destruct (getPlayersPlot pool p) as [ref|] eqn:Href; [|by intros [= _ <- _]].
  destruct (getStructureById structureId) as [st|]; [|by intros [= _ <- _]].
  intros Hrun.
  destruct (getPlayersPlot_Some _ _ _ Href) as [Hlookup _].
  destruct (on_plot_addStructure ref
              {| self := next_instance w; uuid := default "" structureUUID;
                 structure := st |} cf false pool
              (new_StructureInstance (default "" structureUUID) st w).2
              Hlookup) as (_ & _ & _ & _ & Hfail).
  rewrite Hrun in Hfail. by apply (Hfail e).
Qed.

(** X12.  A placement request, whatever its outcome, writes at most the
    plot of the requesting player: the pool keeps its length, every plot
    keeps its player and its instance, and the plots of the other players
    are as they were. *)
Theorem placeStructure_touches_only_players_plot (p : Player)
    (structureId : string) (cf : CFrame) (structureUUID : option string)
    (pool : list Plot) (w : World) :
  let pool' := (placeStructure p structureId cf structureUUID (pool, w)).2.1 in
  length pool' = length pool
  ∧ (getPlayer <$> pool') = (getPlayer <$> pool)
  ∧ (instance <$> pool') = (instance <$> pool)
  ∧ ∀ j this, pool !! j = Some this → getPlayer this ≠ Some p →
              pool' !! j = Some this.
Proof.
  cbv zeta. rewrite placeStructure_unfold.
  destruct (getPlayersPlot pool p) as [ref|] eqn:Href; [|done].
  destruct (getStructureById structureId) as [st|]; [|done].
  destruct (getPlayersPlot_Some _ _ _ Href) as [Hlookup Hplayer].
  destruct (on_plot_addStructure ref
              {| self := next_instance w; uuid := default "" structureUUID;
                 structure := st |} cf false pool
              (new_StructureInstance (default "" structureUUID) st w).2
              Hlookup) as (Hlen & Hplayers & Hinsts & Hother & _).
  split; [done|]. split; [done|]. split; [done|].
  intros j this Hj Hnot. rewrite Hother; [done|].
  intros ->. congruence.
Qed.

(** X13.  When a player leaves, the handler destroys the models of the
    instances listed by the player's plot, but it does not release the
    plot: the pool is as it was, so the plot is still the player's.  For a
    player without a plot the handler does nothing. *)
Theorem onPlayerLeaving_keeps_pool (p : Player) (pool : list Plot)
    (w : World) :
  let r := onPlayerLeaving p (pool, w) in
  r.2.1 = pool
  ∧ getPlayersPlot r.2.1 p = getPlayersPlot pool p
  ∧ (getPlayersPlot pool p = None → r = (Ok tt, (pool, w)))
  ∧ ∀ ref key value,
      getPlayersPlot pool p = Some ref →
      (key, value) ∈ structureList ref.2 →
      instances r.2.2 !! self value = None
      ∧ ∀ h, instances w !! self value = Some h → get_model h r.2.2 = None.
Proof.
  cbv zeta. unfold onPlayerLeaving. run.
  fold (getPlayersPlot pool p).
  destruct (getPlayersPlot pool p) as [ref|] eqn:Href; [|done].
  destruct (getPlayersPlot_Some _ _ _ Href) as [Hlookup Hplayer].
  unfold getPlayer in Hplayer.
  unfold on_plot, unassignPlayer. run. rewrite Hplayer.
  rewrite clear_unfold. cbn.
  assert (<[ref.1:=ref.2]> pool = pool) as -> by by apply list_insert_id.
  split; [done|]. split; [done|]. split; [done|].
  intros ref' key value [= <-] Hin.
  by apply (destroy_all_registered _ w key value).
Qed.

End Facts.

(** * The properties on the concrete host *)

Import Scenario.

(** C4 on plot 0, assigned to alice, when bob is assigned. *)
Lemma assignPlayer_already_assigned_witness :
  assignPlayer bob (plot0_alice, world0)
  = (Throw (AlreadyAssigned "bob"), (plot0_alice, world0)).
Proof.
  exact (assignPlayer_already_assigned bob alice plot0_alice world0 eq_refl).
Defined.

(** C9 on plot 1, which has no platform: the road is spawned as handle 0 and
    the call throws "platform is undefined". *)
Lemma addStructure_without_platform_witness :
  ∃ w', addStructure instance_a 5%Z true (plot1_bob, world0)
        = (Throw MissingPlatform, (plot1_bob, w'))
        ∧ 0 ∈ GetChildren 1 w'
        ∧ instances w' !! 0 = Some 0.
Proof.
  destruct (addStructure_without_platform instance_a 5%Z plot1_bob world0
              eq_refl) as (e & w' & Hrun & _ & Hafter).
  destruct (Hafter hitbox eq_refl) as [_ Hpass].
  destruct (Hpass eq_refl) as (_ & He & _ & Hchild & Hfield & _).
  rewrite He in Hrun by (by eexists).
  exists w'. split; [exact Hrun|]. split; [exact Hchild|exact Hfield].
Defined.

(** C9 as first stated fails when an earlier check stops the call.  Plot 1
    has no platform and holds a road at offset 0; a second road is requested
    with the platform flag set.  The call throws "placement collision"
    before anything is spawned: no object is added to the world, the folder
    has the child it had, and no spawn is among the calls made. *)
Lemma addStructure_without_platform_counterexample :
  let s := (addStructure instance_a 0%Z false (plot1_bob, world0)).2 in
  let r := addStructure instance_b 3%Z true s in
  FindPlatform (instance s.1) s.2 = None
  ∧ r.1 = Throw (PlacementCollision (Some "bob"))
  ∧ objects r.2.2 = objects s.2
  ∧ GetChildren 1 r.2.2 = GetChildren 1 s.2
  ∧ instances r.2.2 !! self instance_b = None
  ∧ Forall (λ ev, is_spawn ev = false)
      (drop (length (trace s.2)) (trace r.2.2)).
Proof. vm_compute. repeat split; by repeat constructor. Qed.

(** C10 for alice, who places two roads without uuid on the second plot of
    the pool.  The first is registered under [""]; the second, a different
    instance, meets that key and, with the overwrite policy, takes its
    place. *)
Lemma placeStructure_without_uuid_witness :
  let pool := [plot1_bob; plot0_alice] in
  let once := placeStructure alice "road-intersection" 5%Z None
                (pool, world0) in
  let twice := placeStructure alice "road-intersection" 9%Z None once.2 in
  once.1 = Ok tt
  ∧ (structureList <$> once.2.1 !! 1)
    = Some [("", {| self := 0; uuid := ""; structure := road |})]
  ∧ (structureList <$> twice.2.1 !! 1)
    = Some [("", {| self := 1; uuid := ""; structure := road |})]
  ∧ last (trace twice.2.2) = Some (EvRegister "" 1).
Proof.
  cbv zeta.
  set (pool := [plot1_bob; plot0_alice]).
  set (once := placeStructure alice "road-intersection" 5%Z None
                 (pool, world0)).
  set (twice := placeStructure alice "road-intersection" 9%Z None once.2).
  assert (getPlayersPlot pool alice = Some (1, plot0_alice)) as Href
    by (vm_compute; reflexivity).
  assert (getStructureById "road-intersection" = Some road) as Hst
    by (vm_compute; reflexivity).
  destruct (placeStructure_without_uuid alice "road-intersection" 5%Z pool
              world0 (1, plot0_alice) road Href Hst)
    as (_ & _ & Hpass & Hreturn).
  assert (once.1 = Ok tt) as Hok
    by exact (Hpass hitbox hitbox eq_refl eq_refl eq_refl).
  assert (once = (Ok tt, (once.2.1, once.2.2))) as Hrun1
    by (vm_compute; reflexivity).
  assert (placeStructure alice "road-intersection" 9%Z None
            (once.2.1, once.2.2) = (Ok tt, (twice.2.1, twice.2.2))) as Hrun2
    by (vm_compute; reflexivity).
  destruct (Hreturn _ _ Hrun1) as (_ & Hfirst & _ & Hsecond).
  destruct (Hsecond _ _ _ _ Hrun2) as (st2 & Hst2 & _ & Hdup & evs & Htrace & _).
  assert (st2 = road) as -> by (injection Hst2 as <-; reflexivity).
  split; [exact Hok|]. split; [exact (Hfirst eq_refl)|].
  split; [exact (Hdup eq_refl)|].
  rewrite Htrace, !last_app. reflexivity.
Defined.

(** C7 on the category [road-intersection; broken]. *)
Lemma getStructureById_road_intersection_witness :
  category_getStructureById category "road-intersection" = Some road
  ∧ category_getStructureById category "nonexistent" = None.
Proof.
  destruct (getStructureById_road_intersection category) as (Hfound & _ & _ & Hnone).
  - by left.
  - intros s [->|Hs]%elem_of_cons Hid; [done|].
    apply list_elem_of_singleton in Hs as ->. discriminate Hid.
  - intros s [->|Hs]%elem_of_cons Hid; [discriminate Hid|].
    apply list_elem_of_singleton in Hs as ->. discriminate Hid.
  - split; [exact Hfound|exact Hnone].
Defined.

(** C6 after placing [a] relative to the platform and then [b] at an
    absolute offset on plot 0: two entries, [a] first. *)
Lemma serialize_in_insertion_order_witness :
  let s := (addStructures [(instance_a, 5%Z, true); (instance_b, 5%Z, false)]
              (plot0, world0)).2 in
  serialized_structures (serialize s.1 s.2)
  = [serializer s.2 instance_a (Some 1000%Z);
     serializer s.2 instance_b (Some 1000%Z)].
Proof.
  cbv zeta.
  set (l := [(instance_a, 5%Z, true); (instance_b, 5%Z, false)]).
  set (s := (addStructures l (plot0, world0)).2).
  destruct (serialize_in_insertion_order s.1 s.2) as (_ & _ & Horder).
  rewrite (Horder l 0 world0).
  - reflexivity.
  - vm_compute. reflexivity.
  - compute_done.
Defined.

(** C8 for alice, whose plot is the second of the pool. *)
Lemma placeStructure_routes_witness :
  placeStructure bob "road-intersection" 5%Z None ([plot0_alice], world0)
  = (Throw (PlotNotFound "bob"), ([plot0_alice], world0))
  ∧ placeStructure alice "nonexistent" 5%Z None ([plot1_bob; plot0_alice], world0)
    = (Throw (StructureNotFound "nonexistent"),
       ([plot1_bob; plot0_alice], world0))
  ∧ ∃ si w1,
      uuid si = "u1"
      ∧ placeStructure alice "road-intersection" 5%Z (Some "u1")
          ([plot1_bob; plot0_alice], world0)
        = on_plot (1, plot0_alice) (addStructure si 5%Z false)
            ([plot1_bob; plot0_alice], w1).
Proof.
  split; [|split].
  - apply (placeStructure_routes bob "road-intersection" 5%Z None
             [plot0_alice] world0).
    intros this ->%list_elem_of_singleton. discriminate.
  - destruct (placeStructure_routes alice "nonexistent" 5%Z None
                [plot1_bob; plot0_alice] world0) as (_ & Hunknown & _).
    destruct (Hunknown eq_refl) as (e & Hrun & He).
    rewrite Hrun, He; [reflexivity|]. by eexists.
  - destruct (placeStructure_routes alice "road-intersection" 5%Z (Some "u1")
                [plot1_bob; plot0_alice] world0) as (_ & _ & Hroute).
    destruct (Hroute (1, plot0_alice) road eq_refl eq_refl)
      as (_ & _ & si & w1 & Hnew & Hrun).
    exists si, w1. split; [|exact Hrun].
    by injection Hnew as <- _.
Defined.

(** ** Each failure of [addStructure] happens *)

Example addStructure_missing_primary_part :
  addStructure instance_broken 5%Z false (plot0_alice, world0)
  = (Throw (MissingAnchorGeometry "broken"), (plot0_alice, world0)).
Proof. reflexivity. Qed.

Example addStructure_collision :
  let s := (addStructure instance_a 0%Z false (plot0_alice, world0)).2 in
  (addStructure instance_b 0%Z false s).1
  = Throw (PlacementCollision (Some "alice"))
  ∧ (addStructure instance_b 0%Z false s).2.1 = s.1
  ∧ objects (addStructure instance_b 0%Z false s).2.2 = objects s.2.
Proof. vm_compute. done. Qed.

Example addStructure_success :
  let s := (addStructure instance_a 5%Z true (plot0_alice, world0)).2 in
  structureList s.1 = [("a", instance_a)]
  ∧ trace s.2 = [EvCollisionQuery hitbox 0 []; EvSpawn 0 0 0;
                 EvPivotTo 0 1005%Z; EvRegister "a" 0]
  ∧ (Pivot <$> get_model 0 s.2) = Some 1005%Z.
Proof. vm_compute. done. Qed.

(** C3, where the code departs from it.  A road stands on plot 0 at offset
    0 and a second one is requested at offset 7, where nothing stands.  The
    oracle is asked about the primary part of the template, which is at
    offset 0 wherever the structure is to go: the call throws "placement
    collision", although the oracle finds the requested place free.  With
    both roads requested at offset 5 the same question is asked, the oracle
    sees no overlap, and the two roads end at the same place.  In both runs
    the query is the first call made, before the spawn. *)
Theorem addStructure_collision_query_at_template :
  let moved := {| Anchored := false; CanCollide := true;
                  Part_CFrame := 7%Z |} in
  let far := (addStructure instance_a 0%Z false (plot0_alice, world0)).2 in
  let same := (addStructure instance_a 5%Z false (plot0_alice, world0)).2 in
  (addStructure instance_b 7%Z false far).1
  = Throw (PlacementCollision (Some "alice"))
  ∧ drop (length (trace far.2)) (trace (addStructure instance_b 7%Z false far).2.2)
    = [EvCollisionQuery hitbox 0 []]
  ∧ Part_CFrame hitbox = 0%Z
  ∧ oracle moved 0 [] far.2 = false
  ∧ (addStructure instance_b 5%Z false same).1 = Ok tt
  ∧ drop (length (trace same.2))
      (trace (addStructure instance_b 5%Z false same).2.2)
    = [EvCollisionQuery hitbox 0 []; EvSpawn 1 1 0; EvPivotTo 1 5%Z;
       EvRegister "b" 1]
  ∧ (Pivot <$> get_model 0 (addStructure instance_b 5%Z false same).2.2)
    = (Pivot <$> get_model 1 (addStructure instance_b 5%Z false same).2.2).
Proof. vm_compute. done. Qed.

(** The run behind C2: alice leaves plot 0, on which [a] was placed.  The
    model of [a] is destroyed and no child is left, so the call returns
    normally; the plot still belongs to alice and still lists [a].  A second
    call runs [clear] again. *)
Example unassignPlayer_run :
  let s := (addStructure instance_a 5%Z false (plot0_alice, world0)).2 in
  let once := unassignPlayer s in
  let twice := unassignPlayer once.2 in
  once.1 = Ok tt
  ∧ GetChildren 0 once.2.2 = []
  ∧ isAssigned once.2.1 = true
  ∧ structureList once.2.1 = [("a", instance_a)]
  ∧ twice.1 = Ok tt
  ∧ drop (length (trace once.2.2)) (trace twice.2.2) = [EvDestroy 0].
Proof. vm_compute. done. Qed.

(** The run behind C10: two placements without uuid by alice.  Both use the
    key [""]; under the overwrite policy the list has one entry while the
    folder has two models. *)
Example placeStructure_twice_without_uuid :
  let pool := [plot1_bob; plot0_alice] in
  let once := (placeStructure alice "road-intersection" 5%Z None
                 (pool, world0)).2 in
  let twice := placeStructure alice "road-intersection" 9%Z None once in
  twice.1 = Ok tt
  ∧ ((λ this, (structureList this).*1) <$> twice.2.1 !! 1) = Some [""]
  ∧ GetChildren 0 twice.2.2 = [0; 1]
  ∧ filter (λ ev, is_register ev = true) (trace twice.2.2)
    = [EvRegister "" 0; EvRegister "" 1].
Proof. vm_compute. done. Qed.

(** The run behind C5 and C9 together: the model left in the folder by a
    placement that failed for want of a platform is not in the structure
    list, so [clear] does not destroy it and reports the leak. *)
Example clear_detects_leak :
  let s := (addStructure instance_a 5%Z true (plot1_bob, world0)).2 in
  structureList s.1 = []
  ∧ (clear s).1 = Throw (ObjectLeakDetected (Some "bob"))
  ∧ GetChildren 1 (clear s).2.2 = [0].
Proof. vm_compute. done. Qed.

(** * The further properties on the concrete host *)

(** X2 for the road placed relative to the platform of plot 0. *)
Lemma addStructure_success_places_model_witness :
  let s := (addStructure instance_a 5%Z true (plot0_alice, world0)).2 in
  (Pivot <$> get_model 0 s.2) = Some 1005%Z
  ∧ (PrimaryPart <$> get_model 0 s.2)
    = Some (Some {| Anchored := true; CanCollide := false;
                    Part_CFrame := 0%Z |})
  ∧ instances s.2 !! 0 = Some 0
  ∧ 0 ∈ GetChildren 0 s.2.
Proof.
  cbv zeta.
  set (s := (addStructure instance_a 5%Z true (plot0_alice, world0)).2).
  assert (addStructure instance_a 5%Z true (plot0_alice, world0)
          = (Ok tt, (s.1, s.2))) as Hrun by (vm_compute; reflexivity).
  destruct (addStructure_success_places_model _ _ _ _ _ _ _ Hrun)
    as (pp & cf' & Hpp & (pl & Hpl & ->) & _ & Hnew & Hfield & Hchildren).
  injection Hpp as <-. injection Hpl as <-.
  change (length (objects world0)) with 0 in Hnew, Hfield, Hchildren.
  split; [by rewrite Hnew|]. split; [by rewrite Hnew|].
  split; [exact Hfield|]. apply Hchildren. by right.
Defined.

(** X3 on plot 0, whose platform is at offset 1000. *)
Lemma addStructure_relative_is_composed_witness :
  addStructure instance_a 5%Z true (plot0_alice, world0)
  = addStructure instance_a 1005%Z false (plot0_alice, world0).
Proof.
  exact (addStructure_relative_is_composed instance_a 5%Z plot0_alice world0
           platform eq_refl).
Defined.

(** X6 for alice on plot 0, followed by a placement, her leaving, a clear and
    bob's attempt. *)
Lemma plot_stays_assigned_witness :
  let l := [CallAddStructure instance_a 5%Z true; CallUnassignPlayer;
            CallClear; CallAssignPlayer bob] in
  let s := calls l (assignPlayer alice (plot0, world0)).2 in
  getPlayer s.1 = Some alice
  ∧ assignPlayer bob s = (Throw (AlreadyAssigned "bob"), s).
Proof.
  cbv zeta.
  destruct (plot_stays_assigned alice bob
              [CallAddStructure instance_a 5%Z true; CallUnassignPlayer;
               CallClear; CallAssignPlayer bob] plot0 world0 eq_refl)
    as (_ & Hplayer & _ & _ & Hagain).
  split; [exact Hplayer|exact Hagain].
Defined.

(** X9 for two roads on plot 0. *)
Lemma clear_after_placements_witness :
  let s := (addStructures [(instance_a, 5%Z, true); (instance_b, 5%Z, false)]
              (plot0, world0)).2 in
  (clear s).1 = Ok tt ∧ GetChildren 0 (clear s).2.2 = [].
Proof.
  cbv zeta.
  set (l := [(instance_a, 5%Z, true); (instance_b, 5%Z, false)]).
  set (s := (addStructures l (plot0, world0)).2).
  assert (addStructures l (new_Plot 0, world0) = (Ok tt, (s.1, s.2))) as Hrun
    by (vm_compute; reflexivity).
  destruct (clear_after_placements l 0 s.1 world0 s.2 eq_refl Hrun)
    as [Hok Hempty]; [compute_done|compute_done|].
  destruct s as [this w]. split; [exact Hok|exact Hempty].
Defined.

(** X10 on plot 1, which has no platform. *)
Lemma clear_after_missing_platform_witness :
  let s := (addStructure instance_a 5%Z true (plot1_bob, world0)).2 in
  (clear s).1 = Throw (ObjectLeakDetected (Some "bob"))
  ∧ 0 ∈ GetChildren 1 (clear s).2.2.
Proof.
  cbv zeta.
  set (s := (addStructure instance_a 5%Z true (plot1_bob, world0)).2).
  assert (addStructure instance_a 5%Z true (plot1_bob, world0)
          = (Throw MissingPlatform, (s.1, s.2))) as Hrun
    by (vm_compute; reflexivity).
  destruct (clear_after_missing_platform _ _ _ _ _ _ _ Hrun)
    as (_ & Hleak & Hchild).
  - cbn. apply not_elem_of_nil.
  - intros i h Hi. unfold world0 in Hi. cbn [instances] in Hi.
    by rewrite lookup_empty in Hi.
  - destruct s as [this w]. split; [exact Hleak|exact Hchild].
Defined.

(** X11 for a second road requested by alice while one stands at offset 0:
    the request throws and the pool is the one of before. *)
Lemma placeStructure_failure_keeps_pool_witness :
  let s := (placeStructure alice "road-intersection" 0%Z (Some "first")
              ([plot1_bob; plot0_alice], world0)).2 in
  let r := placeStructure alice "road-intersection" 7%Z (Some "second") s in
  r.1 = Throw (PlacementCollision (Some "alice")) ∧ r.2.1 = s.1.
Proof.
  cbv zeta.
  set (s := (placeStructure alice "road-intersection" 0%Z (Some "first")
               ([plot1_bob; plot0_alice], world0)).2).
  set (r := placeStructure alice "road-intersection" 7%Z (Some "second") s).
  assert (placeStructure alice "road-intersection" 7%Z (Some "second")
            (s.1, s.2)
          = (Throw (PlacementCollision (Some "alice")), (r.2.1, r.2.2)))
    as Hrun by (vm_compute; reflexivity).
  split; [vm_compute; reflexivity|].
  exact (placeStructure_failure_keeps_pool _ _ _ _ _ _ _ _ _ Hrun).
Defined.

(** The run behind X13: alice places a road and leaves.  The road's model is
    destroyed, the pool is unchanged, and a later request of hers is still
    routed to plot 0, where it is registered next to the destroyed one. *)
Example onPlayerLeaving_run :
  let pool := [plot1_bob; plot0_alice] in
  let placed := (placeStructure alice "road-intersection" 5%Z (Some "first")
                   (pool, world0)).2 in
  let left := onPlayerLeaving alice placed in
  let again := placeStructure alice "road-intersection" 9%Z (Some "second")
                 left.2 in
  left.1 = Ok tt
  ∧ left.2.1 = placed.1
  ∧ GetChildren 0 left.2.2 = []
  ∧ again.1 = Ok tt
  ∧ ((λ this, (structureList this).*1) <$> again.2.1 !! 1)
    = Some ["first"; "second"]
  ∧ GetChildren 0 again.2.2 = [1].
Proof. vm_compute. done. Qed.
